(** * QTPAiProject: the batch dispatch core and its provider gateway

    A shallow embedding of [src/ai_model.py] and [src/lambda_function.py],
    followed by the properties of the specification that were checked
    against it.

    Conventions of the embedding.
    - A Python [str] is a [string]; each character is a code point below 256.
      Where an operation leaves that range ([str.upper]) its result is a
      list of code points.
    - Python exceptions are values of [exn]; code that may raise returns a
      [result].  Only subclasses of [Exception] are modelled.
    - [os.environ] is a [gmap string string], passed explicitly: it maps
      the name of a variable, in the bytes the operating system holds
      (UTF-8), to its value.
    - The pipes created by [multiprocessing.Pipe] live in a store indexed by
      pipe number; both ends of a pipe name the same store cell.  A pipe
      holds so much unread data and no more: a [send] that does not fit
      blocks, and code that blocks for ever is a run that [Hangs].
    - Third-party libraries (openai, anthropic, requests, boto3) and the
      built-in rendering of a list by [str] are the fields of [World].
    - [print] writes to standard output only and is left out. *)

From Stdlib Require Import ZArith Ascii String DecimalString.
From stdpp Require Import base option list strings gmap.

Local Open Scope string_scope.
Local Open Scope list_scope.

(** ** Python values shared by both source files *)

Module Py.

(** The exception classes that the two files raise, catch or can receive
    from their libraries. *)
Inductive exn_class : Set :=
| ValueError
| TypeError
| AttributeError
| KeyError
| IndexError
| EOFError
| OSError
| RequestException         (* requests.exceptions.RequestException *)
| HTTPError                (* requests: subclass of RequestException *)
| RequestsConnectionError  (* requests: subclass of RequestException *)
| RequestsTimeout          (* requests: subclass of RequestException *)
| APIConnectionError       (* openai / anthropic transport failure *)
| AuthenticationError      (* openai / anthropic rejected credential *)
| ClientError.             (* botocore *)

(** An exception object: its class and the text [str(e)] gives. *)
Record exn : Set := Exn { exn_cls : exn_class; exn_str : string }.

Inductive result (A : Type) : Type :=
| Ok (a : A)
| Raise (e : exn).
Global Arguments Ok {A} a.
Global Arguments Raise {A} e.

Global Instance result_ret : MRet result := @Ok.
Global Instance result_bind : MBind result := λ A B f m,
  match m with
  | Ok a => f a
  | Raise e => Raise e
  end.

(** [isinstance(e, requests.exceptions.RequestException)] *)
Definition is_RequestException (e : exn) : bool :=
  match exn_cls e with
  | RequestException | HTTPError | RequestsConnectionError | RequestsTimeout => true
  | _ => false
  end.

(** [isinstance(e, Exception)]: every modelled class derives from it. *)
Definition is_Exception (e : exn) : bool := true.

(** [try: body  except <cls> as e: handler e] *)
Definition try_except {A} (body : result A) (cls : exn → bool)
    (handler : exn → result A) : result A :=
  match body with
  | Ok a => Ok a
  | Raise e => if cls e then handler e else Raise e
  end.

(** Values a JSON request field can hold, as far as the code inspects
    them. *)
Inductive pyval : Type :=
| PyStr (s : string)
| PyInt (z : Z)
| PyBool (b : bool)
| PyNone
| PyList (l : list string).

(** *** Strings *)

Definition code (c : ascii) : N := Ascii.N_of_ascii c.

(** [str.isspace] on one character, for code points below 256. *)
Definition isspace (c : ascii) : bool :=
  let n := code c in
  ((9 <=? n) && (n <=? 13) || (28 <=? n) && (n <=? 32)
   || (n =? 133) || (n =? 160))%N.

Fixpoint lstrip (s : string) : string :=
  match s with
  | EmptyString => EmptyString
  | String c s' => if isspace c then lstrip s' else s
  end.

Fixpoint rstrip (s : string) : string :=
  match s with
  | EmptyString => EmptyString
  | String c s' =>
      match rstrip s' with
      | EmptyString => if isspace c then EmptyString else String c EmptyString
      | r => String c r
      end
  end.

(** [s.strip()] *)
Definition strip (s : string) : string := rstrip (lstrip s).

(** [str.lower] on one character, for code points below 256. *)
Definition lower_char (c : ascii) : ascii :=
  let n := code c in
  if ((65 <=? n) && (n <=? 90) || (192 <=? n) && (n <=? 222) && negb (n =? 215))%N
  then Ascii.ascii_of_N (n + 32) else c.

Fixpoint map_string (f : ascii → ascii) (s : string) : string :=
  match s with
  | EmptyString => EmptyString
  | String c s' => String (f c) (map_string f s')
  end.

Definition lower : string → string := map_string lower_char.

(** The code points of a string. *)
Definition points (s : string) : list N := code <$> list_ascii_of_string s.

(** [str.upper] on one character, for code points below 256: the sharp s
    becomes two letters, and the micro sign and the y with diaeresis leave
    the range. *)
Definition upper_point (c : ascii) : list N :=
  let n := code c in
  if ((97 <=? n) && (n <=? 122) || (224 <=? n) && (n <=? 254) && negb (n =? 247))%N
  then [n - 32]%N
  else if (n =? 223)%N then [83; 83]%N
  else if (n =? 181)%N then [924]%N
  else if (n =? 255)%N then [376]%N
  else [n].

(** [s.upper()], as code points. *)
Definition upper_points (s : string) : list N :=
  concat (upper_point <$> list_ascii_of_string s).

(** The UTF-8 bytes of one code point. *)
Definition utf8_point (n : N) : string :=
  let byte (k : N) := String (Ascii.ascii_of_N k) EmptyString in
  if (n <? 128)%N then byte n
  else if (n <? 2048)%N then byte (192 + n / 64)%N +:+ byte (128 + n mod 64)%N
  else if (n <? 65536)%N
    then byte (224 + n / 4096)%N +:+ byte (128 + (n / 64) mod 64)%N
           +:+ byte (128 + n mod 64)%N
  else byte (240 + n / 262144)%N +:+ byte (128 + (n / 4096) mod 64)%N
         +:+ byte (128 + (n / 64) mod 64)%N +:+ byte (128 + n mod 64)%N.

(** [os.fsencode] of a string given by its code points. *)
Definition utf8 (l : list N) : string := foldr (λ n s, utf8_point n +:+ s) EmptyString l.

(** [s.split(sep)] for a one-character separator. *)
Fixpoint split (sep : ascii) (s : string) : list string :=
  match s with
  | EmptyString => [EmptyString]
  | String c s' =>
      match split sep s' with
      | [] => [String c EmptyString]
      | h :: t => if Ascii.eqb c sep then EmptyString :: h :: t
                  else String c h :: t
      end
  end.

(** Truth value of a string: non-empty. *)
Definition truthy (s : string) : bool :=
  match s with
  | EmptyString => false
  | String _ _ => true
  end.

(** [str(n)] for an integer. *)
Definition str_int (z : Z) : string := NilZero.string_of_int (Z.to_int z).

End Py.
Import Py.


(** ** What travels through a pipe *)

(** One grid cell: the text [model.call] returned, or the dictionary
    [{"error": True, "message": {"content": content}}]. *)
Inductive cell : Set :=
| CStr (s : string)
| CErr (content : string).

(** A message: a Python list of cells. *)
Definition message : Set := list cell.

Definition cell_text (c : cell) : string :=
  match c with
  | CStr s => s
  | CErr content => content
  end.

(** The number of characters of text a message carries. *)
Definition message_text (m : message) : nat :=
  foldr (λ c n, String.length (cell_text c) + n) 0 m.

(** ** The outside world

    What the third-party libraries and the Python runtime answer.  Each
    field is a function of its arguments: a stub of the collaborator. *)

Record OpenAIClient : Set := { oa_api_key : option string; oa_base_url : option string }.

Record AnthropicClient : Set := { an_api_key : string }.

(** The reply of [requests.post]: what [raise_for_status()] does, and what
    [json()] gives for the key ['choices'] ([None]: the key is missing),
    as the list of the [['message']['content']] of its entries. *)
Record HTTPResponse : Set := {
  raise_for_status : result unit;
  json_choices : result (option (list string))
}.

Record World : Type := {
  (** [OpenAI(api_key=.., base_url=..)]; the constructor reads [os.environ]
      for what is not passed. *)
  OpenAI_new : gmap string string → option string → option string → result OpenAIClient;
  (** [client.chat.completions.create(model=.., messages=[user prompt])]:
      the [message.content] of each choice. *)
  chat_completions_create : OpenAIClient → string → string → result (list string);
  (** [anthropic.Client(key)] *)
  anthropic_Client : string → result AnthropicClient;
  (** [client.messages.create(model=.., max_tokens=.., messages=[user prompt])]:
      the [text] of each content block. *)
  messages_create : AnthropicClient → string → Z → string → result (list string);
  (** [requests.post(url, json={model, messages=[user prompt]}, headers=..)] *)
  requests_post : string → list (string * string) → string → string → result HTTPResponse;
  (** [boto3.resource('dynamodb', region_name=..).Table(..).query(
      KeyConditionExpression=Key(..).eq(..))]: [Some s] when the response
      has the key ["Items"], [s] being what [str] makes of the items. *)
  table_query : string → string → string → string → result (option string);
  (** [str(l)] for a list of strings. *)
  str_list : list string → string;
  (** Whether [conn.send(obj)] returns while the messages [unread] sit in
      the pipe and nobody receives: the connection has room for the
      pickled [obj].  [False]: the sender blocks until somebody receives. *)
  pipe_takes : list message → message → bool;
  (** Every platform has room in an empty pipe for a message of at most
      512 characters of text. *)
  short_message_fits : ∀ m, (message_text m ≤ 512)%nat → pipe_takes [] m = true
}.

(** [l[0]] *)
Definition index0 {A} (l : list A) : result A :=
  match l with
  | x :: _ => Ok x
  | [] => Raise (Exn IndexError "list index out of range")
  end.

(** [not v] for the value of [os.environ.get(..)]. *)
Definition not_key (v : option string) : bool :=
  match v with
  | Some s => negb (truthy s)
  | None => true
  end.

(** [os.environ[name] = value], the name given by its code points: the
    bytes of the name and of the value go to [putenv], which refuses a NUL
    in either and an empty name or one with an equals sign. *)
Definition environ_setitem (name : list N) (value : string)
    (environ : gmap string string) : result (gmap string string) :=
  if existsb (N.eqb 0) name || existsb (N.eqb 0) (points value)
  then Raise (Exn ValueError "embedded null byte")
  else if match name with [] => true | _ => existsb (N.eqb 61) name end
  then Raise (Exn ValueError "illegal environment variable name")
  else Ok (<[utf8 name := value]> environ).

(** ** src/ai_model.py *)

Module ai_model.

Record AIModel : Set := { provider : string }.

Definition valid_providers : list string := ["openai"; "anthropic"; "grok"; "perplexity"].

Definition __init__ (provider : string) : result AIModel :=
  if decide (lower provider ∈ valid_providers)
  then Ok {| provider := lower provider |}
  else Raise (Exn ValueError
    "Unsupported provider. Must be one of: ['openai', 'anthropic', 'grok', 'perplexity']").

(** The f-string [f"{self.provider.upper()}_API_KEY"], as code points. *)
Definition env_var_name (self : AIModel) : list N :=
  upper_points (provider self) ++ points "_API_KEY".

Definition set_api_key (self : AIModel) (api_key : pyval) (environ : gmap string string)
    : result (gmap string string) :=
  match api_key with
  | PyStr api_key =>
      if (String.length (strip api_key) =? 0)%nat
      then Raise (Exn ValueError "API key cannot be empty or whitespace")
      else environ_setitem (env_var_name self) (strip api_key) environ
  | _ => Raise (Exn TypeError "API key must be a string")
  end.

Definition error_calling (error : exn) : result string :=
  Ok ("Error calling AI service: " +:+ exn_str error).

Definition openai_api_call (w : World) (environ : gmap string string) (self : AIModel)
    (prompt : string) : result string :=
  let OPENAI_API_KEY := environ !! "OPENAI_API_KEY" in
  if not_key OPENAI_API_KEY
  then Ok "Error: OpenAI API key not found in environment variables"
  else
    try_except
      (client ← OpenAI_new w environ None None;
       completion ← chat_completions_create w client "gpt-4o" prompt;
       index0 completion)
      is_Exception error_calling.

Definition anthropic_api_call (w : World) (environ : gmap string string) (self : AIModel)
    (prompt : string) (model : string) : result string :=
  match environ !! "ANTHROPIC_API_KEY" with
  | Some ANTHROPIC_API_KEY =>
      if negb (truthy ANTHROPIC_API_KEY)
      then Ok "Error: Anthropic API key not found in environment variables"
      else
        try_except
          (client ← anthropic_Client w ANTHROPIC_API_KEY;
           message ← messages_create w client model 100 prompt;
           index0 message)
          is_Exception error_calling
  | None => Ok "Error: Anthropic API key not found in environment variables"
  end.

Definition grok_api_call (w : World) (environ : gmap string string) (self : AIModel)
    (prompt : string) (model : string) : result string :=
  match environ !! "GROK_API_KEY" with
  | Some GROK_API_KEY =>
      if negb (truthy GROK_API_KEY)
      then Ok "Error: Grok API key not found in environment variables"
      else
        client ← OpenAI_new w environ (Some GROK_API_KEY) (Some "https://api.x.ai/v1");
        completion ← chat_completions_create w client "grok-2-latest" prompt;
        try_except (index0 completion) is_RequestException error_calling
  | None => Ok "Error: Grok API key not found in environment variables"
  end.

Definition perplexity_api_call (w : World) (environ : gmap string string) (self : AIModel)
    (prompt : string) (model : string) : result string :=
  match environ !! "PERPLEXITY_API_KEY" with
  | Some PERPLEXITY_API_KEY =>
      if negb (truthy PERPLEXITY_API_KEY)
      then Ok "Error: Perplexity API key not found in environment variables"
      else
        let url := "https://api.perplexity.ai/v1/chat/completions" in
        let headers := [("Authorization", "Bearer " +:+ PERPLEXITY_API_KEY);
                        ("Content-Type", "application/json")] in
        try_except
          (response ← requests_post w url headers model prompt;
           _ ← raise_for_status response;
           result ← json_choices response;
           match result with
           | Some choices => index0 choices
           | None => Raise (Exn KeyError "'choices'")
           end)
          is_RequestException error_calling
  | None => Ok "Error: Perplexity API key not found in environment variables"
  end.

(** [getattr(self, name, None)] for a name ending in [_api_call]: the class
    defines four such methods, each called with the prompt alone, so with
    the default of its second parameter. *)
Definition getattr (w : World) (environ : gmap string string) (self : AIModel)
    (name : string) : option (string → result string) :=
  if decide (name = "openai_api_call") then Some (openai_api_call w environ self)
  else if decide (name = "anthropic_api_call")
    then Some (λ prompt, anthropic_api_call w environ self prompt "claude-1")
  else if decide (name = "grok_api_call")
    then Some (λ prompt, grok_api_call w environ self prompt "grok-model")
  else if decide (name = "perplexity_api_call")
    then Some (λ prompt, perplexity_api_call w environ self prompt "perplexity-model")
  else None.

Definition call (w : World) (environ : gmap string string) (self : AIModel)
    (prompt : string) : result string :=
  let provider_method := provider self +:+ "_api_call" in
  match getattr w environ self provider_method with
  | None => Ok ("Error: Unsupported AI provider '" +:+ provider self +:+ "'.")
  | Some method => method prompt
  end.

End ai_model.

(** ** src/lambda_function.py *)

Module lambda_function.
Import ai_model.

(** *** Pipes and child processes *)

(** A pipe from a child to its parent: what was sent and not yet received,
    and whether the child's end is closed. *)
Record Pipe : Set := { buffer : list message; closed : bool }.

(** How a piece of code ends: it returns or raises, leaving a state, or it
    blocks for ever. *)
Inductive run (S A : Type) : Type :=
| Ends (a : A) (s : S)
| Hangs.
Global Arguments Ends {S A} a s.
Global Arguments Hangs {S A}.

(** Code that uses pipes: it may raise, it changes the store, and it may
    block. *)
Definition Proc (A : Type) : Type := list Pipe → run (list Pipe) (result A).

Definition proc_ret {A} (a : A) : Proc A := λ ps, Ends (Ok a) ps.

Definition proc_bind {A B} (m : Proc A) (f : A → Proc B) : Proc B := λ ps,
  match m ps with
  | Ends (Ok a) ps' => f a ps'
  | Ends (Raise e) ps' => Ends (Raise e) ps'
  | Hangs => Hangs
  end.

Definition lift {A} (r : result A) : Proc A := λ ps, Ends r ps.

Global Instance proc_mret : MRet Proc := @proc_ret.
Global Instance proc_mbind : MBind Proc := λ A B f m, proc_bind m f.

(** [try: body  except Exception as e: handler e] *)
Definition proc_try_except {A} (body : Proc A) (handler : exn → Proc A) : Proc A := λ ps,
  match body ps with
  | Ends (Ok a) ps' => Ends (Ok a) ps'
  | Ends (Raise e) ps' => if is_Exception e then handler e ps' else Ends (Raise e) ps'
  | Hangs => Hangs
  end.

(** [try: body  finally: final] *)
Definition proc_finally {A} (body : Proc A) (final : Proc unit) : Proc A := λ ps,
  match body ps with
  | Ends r ps' =>
      match final ps' with
      | Ends (Ok _) ps'' => Ends r ps''
      | Ends (Raise e) ps'' => Ends (Raise e) ps''
      | Hangs => Hangs
      end
  | Hangs => Hangs
  end.

(** [for x in l: acc = f acc x] *)
Fixpoint proc_for {A B} (l : list A) (f : B → A → Proc B) (acc : B) : Proc B :=
  match l with
  | [] => proc_ret acc
  | x :: l' => acc' ← f acc x; proc_for l' f acc'
  end.

(** [Pipe()]: a new pipe; both connections are its number in the store. *)
Definition Pipe_new : Proc nat := λ ps,
  Ends (Ok (length ps)) (ps ++ [{| buffer := []; closed := false |}]).

(** [conn.send(obj)] on the child's end: it returns when the pipe takes the
    message, and blocks when it does not, for nobody receives while the
    children run. *)
Definition conn_send (w : World) (conn : nat) (obj : message) : Proc unit := λ ps,
  match ps !! conn with
  | Some p =>
      if closed p then Ends (Raise (Exn OSError "handle is closed")) ps
      else if pipe_takes w (buffer p) obj
      then Ends (Ok ()) (<[conn := {| buffer := buffer p ++ [obj]; closed := false |}]> ps)
      else Hangs
  | None => Ends (Raise (Exn OSError "handle is closed")) ps
  end.

(** [conn.close()] on the child's end. *)
Definition conn_close (conn : nat) : Proc unit := λ ps,
  match ps !! conn with
  | Some p => Ends (Ok ()) (<[conn := {| buffer := buffer p; closed := true |}]> ps)
  | None => Ends (Ok ()) ps
  end.

(** [conn.recv()] on the parent's end, once the child has ended: the oldest
    message, or [EOFError] when nothing is left. *)
Definition conn_recv (conn : nat) : Proc message := λ ps,
  match ps !! conn with
  | Some p =>
      match buffer p with
      | m :: b => Ends (Ok m) (<[conn := {| buffer := b; closed := closed p |}]> ps)
      | [] => Ends (Raise (Exn EOFError "")) ps
      end
  | None => Ends (Raise (Exn EOFError "")) ps
  end.

(** A child process, as its parent sees it: whether it has ended. *)
Record Process : Set := { ended : bool }.

(** [Process(target=..)] and [start()], then the child's run as far as it
    gets.  The children of a wave share nothing but their own pipe with the
    parent, and the parent receives nothing before it has joined them all:
    running each child at its start is one of the equivalent schedules.  A
    child ends when its target returns or raises (the parent does not see
    the exception); a child that blocks in [send] stays blocked, and the
    part it has written is no message yet. *)
Definition Process_start (target : Proc unit) : Proc Process := λ ps,
  match target ps with
  | Ends _ ps' => Ends (Ok {| ended := true |}) ps'
  | Hangs => Ends (Ok {| ended := false |}) ps
  end.

(** [process.join()]: it returns when the child has ended. *)
Definition Process_join (process : Process) : Proc unit := λ ps,
  if ended process then Ends (Ok ()) ps else Hangs.

(** *** Dictionaries in insertion order *)

Definition dict (V : Type) : Type := list (string * V).

(** [d[k] = v]: a present key keeps its place. *)
Fixpoint dict_setitem {V} (d : dict V) (k : string) (v : V) : dict V :=
  match d with
  | [] => [(k, v)]
  | (k', v') :: d' =>
      if decide (k' = k) then (k', v) :: d' else (k', v') :: dict_setitem d' k v
  end.

(** [d[k].append(x)] *)
Fixpoint dict_append {V} (d : dict (list V)) (k : string) (x : V) : result (dict (list V)) :=
  match d with
  | [] => Raise (Exn KeyError k)
  | (k', v') :: d' =>
      if decide (k' = k) then Ok ((k', v' ++ [x]) :: d')
      else d'' ← dict_append d' k x; Ok ((k', v') :: d'')
  end.

(** [{k: f(k) for k in ks}] *)
Definition dict_comprehension {V} (f : string → V) (ks : list string) : dict V :=
  foldl (λ d k, dict_setitem d k (f k)) [] ks.

Definition values {V} (d : dict V) : list V := d.*2.
Definition keys {V} (d : dict V) : list string := d.*1.

(** *** The functions of the file *)

Inductive dynamo_value : Set :=
| Items (rendered : string)
| NotFound.

(** [str] of what [read_dynamo] returns. *)
Definition str_dynamo (v : dynamo_value) : string :=
  match v with
  | Items rendered => rendered
  | NotFound => "{'statusCode': 404, 'body': 'Customer not found'}"
  end.

Definition read_dynamo (w : World) (company : string) : result dynamo_value :=
  response ← table_query w "us-west-2" "qtp-ai-dynamo-db" "name" company;
  match response with
  | Some items => Ok (Items items)
  | None => Ok NotFound
  end.

(** The f-string that [sheet_ai_call] binds to [full_prompt]. *)
Definition full_prompt_template (company prompt : string) : string :=
  "
        Act as a financial analyst for an investment banking company.
        Be concise with your word, and only provide information needed. Evaluate the company "
  +:+ company +:+ ",
        by answer the following questions: " +:+ prompt +:+ ".
        If outputs were to be links, names, numerical figures, contact, etc; that do not require textual
        description, ONLY provide that output, nothing else.
        Limit output to less than 80 words, no more than this.
        ".

Definition sheet_ai_call (w : World) (environ : gmap string string)
    (company prompt : string) (private_data : bool) (model : AIModel) (conn : nat)
    : Proc unit :=
  proc_finally
    (proc_try_except
       (let full_prompt := full_prompt_template company prompt in
        full_prompt ←
          (if private_data
           then private_data_result ← lift (read_dynamo w company);
                mret (full_prompt +:+ " Incorporate this data as a reference: "
                        +:+ str_dynamo private_data_result)
           else mret full_prompt);
        result ← lift (call w environ model full_prompt);
        conn_send w conn [CStr result])
       (λ e, conn_send w conn
               [CErr ("Error processing " +:+ company +:+ ": " +:+ exn_str e)]))
    (conn_close conn).

Record Metadata : Set := { companies : list string; prompts : list string }.

Record BatchResult : Set := { data : list (list cell); metadata : Metadata }.

Definition parallel_ai_call (w : World) (environ : gmap string string)
    (companies prompts : list string) (private_data : bool) (model : AIModel)
    : Proc BatchResult :=
  let company_results := dict_comprehension (λ company, [CStr company]) companies in
  company_results ← proc_for prompts (λ company_results prompt,
    '(processes, parent_connections) ←
      proc_for companies (λ '(processes, parent_connections) company,
        conn ← Pipe_new;
        let parent_connections := dict_setitem parent_connections company conn in
        process ← Process_start
                    (sheet_ai_call w environ company prompt private_data model conn);
        let processes := processes ++ [process] in
        mret (processes, parent_connections)) ([], []);
    _ ← proc_for processes (λ _ process, Process_join process) ();
    proc_for parent_connections (λ company_results '(company, conn),
      received ← conn_recv conn;
      result ← lift (index0 received);
      lift (dict_append company_results company result)) company_results)
    company_results;
  let results := values company_results in
  mret {| data := results;
          metadata := {| companies := companies; prompts := prompts |} |}.

(** The f-string that [generate_companies] binds to [prompt]; the list of
    companies is rendered by [str]. *)
Definition discovery_prompt (w : World) (number : Z) (company : list string) : string :=
  "
        Your task is to conduct deep research to identify " +:+ str_int number
  +:+ " companies or investors
        that would be willing to invest in " +:+ str_list w company
  +:+ ". Follow these steps:
        Search for companies in the gaming industry that have recently engaged in
        gaming companies acquisition, focus on recent transactions. In addition,
        incorporate companies outside of gaming industry, that have traction with the
        gaming industry, or have expanded its business towrds the gaming industry.
        Check these companies recent management presentations, earning call transcripts,
        search company LinkedIn for keywords such as M&A, investment, or deal.
        Output should ONLY be the name of the company, seperated with a comma.
        Do not output anything else. ".

Definition generate_companies (w : World) (environ : gmap string string)
    (company : list string) (number : Z) (model : AIModel) : result (list string) :=
  let prompt := discovery_prompt w number company in
  result ← call w environ model prompt;
  Ok (foldl (λ companies company, companies ++ [strip company]) [] (split "," result)).

(** A request field that holds a string or a list of strings. *)
Inductive str_or_list : Set :=
| Scalar (s : string)
| Many (l : list string).

(** The request; [None] stands for a key the event does not have. *)
Record Event : Set := {
  ev_companies : option str_or_list;
  ev_prompts : option str_or_list;
  ev_provider : option string;
  ev_api_key : option pyval;
  ev_number : option Z;
  ev_create_list : option bool;
  ev_private_data : option bool
}.

(** The dictionary handed to [json.dumps] for the body. *)
Inductive Body : Set :=
| BodyResult (result : BatchResult)
| BodyError (error : string).

Record Response : Set := {
  statusCode : Z;
  headers : list (string * string);
  body : Body
}.

(** [x if isinstance(x, list) else ([x] if x else [])] *)
Definition ensure_list (x : str_or_list) : list string :=
  match x with
  | Many l => l
  | Scalar s => if truthy s then [s] else []
  end.

(** [[v for v in l if v]] *)
Definition filter_out_empty (l : list string) : list string :=
  filter (λ v, truthy v = true) l.

(** The body of the handler's [try]: its result and the environment it
    leaves, unless a wave blocks. *)
Definition lambda_handler_try (w : World) (environ : gmap string string) (event : Event)
    : run (gmap string string) (result BatchResult) :=
  let company_names := default (Many []) (ev_companies event) in
  let prompts := default (Many []) (ev_prompts event) in
  let provider := default "" (ev_provider event) in
  let api_key := default (PyStr "") (ev_api_key event) in
  let number := default 10%Z (ev_number event) in
  let create_list := default false (ev_create_list event) in
  let private_data := default false (ev_private_data event) in
  match ai_model.__init__ provider with
  | Raise e => Ends (Raise e) environ
  | Ok model =>
      match set_api_key model api_key environ with
      | Raise e => Ends (Raise e) environ
      | Ok environ =>
          let company_names := ensure_list company_names in
          let prompts := ensure_list prompts in
          let companies := filter_out_empty company_names in
          let prompts := filter_out_empty prompts in
          match (if create_list
                 then generate_companies w environ companies number model
                 else Ok companies) with
          | Raise e => Ends (Raise e) environ
          | Ok companies =>
              match parallel_ai_call w environ companies prompts private_data model [] with
              | Ends result _ => Ends result environ
              | Hangs => Hangs
              end
          end
      end
  end.

(** The handler: its response and the environment it leaves, unless a wave
    blocks and it never returns. *)
Definition lambda_handler (w : World) (environ : gmap string string) (event : Event)
    : run (gmap string string) Response :=
  match lambda_handler_try w environ event with
  | Ends (Ok result) environ =>
      Ends {| statusCode := 200;
              headers := [("Content-Type", "application/json")];
              body := BodyResult result |} environ
  | Ends (Raise e) environ =>
      Ends {| statusCode := 500;
              headers := [("Content-Type", "application/json")];
              body := BodyError (exn_str e) |} environ
  | Hangs => Hangs
  end.

End lambda_function.

Import ai_model lambda_function.

(** ** Stub worlds and the reading of a task *)

(** [str(l)] for a list of names that hold no quote, backslash or control
    character. *)
Definition str_names (l : list string) : string :=
  "[" +:+ String.concat ", " ((λ name, "'" +:+ name +:+ "'") <$> l) +:+ "]".

(** A pipe with room for [capacity] characters of unread text. *)
Definition takes_text (capacity : nat) (unread : list message) (obj : message) : bool :=
  (foldr (λ m n, message_text m + n) 0 unread + message_text obj <=? capacity)%nat.

Lemma takes_text_short capacity m :
  (512 ≤ capacity)%nat → (message_text m ≤ 512)%nat → takes_text capacity [] m = true.
Proof. intros Hcap Hm. unfold takes_text. simpl. apply Nat.leb_le. lia. Qed.

Lemma room_for_short_messages : (512 ≤ 64 * 1024)%nat.
Proof. apply Nat.leb_le. reflexivity. Qed.

(** Every backend answers [reply]; the private-data table has no items; a
    pipe holds 64 * 1024 characters of text. *)
Definition stub_world (reply : string) : World := {|
  OpenAI_new := λ _ api_key base_url,
    Ok {| oa_api_key := api_key; oa_base_url := base_url |};
  chat_completions_create := λ _ _ _, Ok [reply];
  anthropic_Client := λ api_key, Ok {| an_api_key := api_key |};
  messages_create := λ _ _ _ _, Ok [reply];
  requests_post := λ _ _ _ _,
    Ok {| raise_for_status := Ok (); json_choices := Ok (Some [reply]) |};
  table_query := λ _ _ _ _, Ok None;
  str_list := str_names;
  pipe_takes := takes_text (64 * 1024);
  short_message_fits := λ m, takes_text_short (64 * 1024) m room_for_short_messages
|}.

(** No backend can be reached: every request fails in transport. *)
Definition offline_world : World := {|
  OpenAI_new := λ _ api_key base_url,
    Ok {| oa_api_key := api_key; oa_base_url := base_url |};
  chat_completions_create := λ _ _ _, Raise (Exn APIConnectionError "Connection error.");
  anthropic_Client := λ api_key, Ok {| an_api_key := api_key |};
  messages_create := λ _ _ _ _, Raise (Exn APIConnectionError "Connection error.");
  requests_post := λ _ _ _ _, Raise (Exn RequestsConnectionError "Connection refused");
  table_query := λ _ _ _ _, Raise (Exn ClientError "Could not connect to the endpoint URL");
  str_list := str_names;
  pipe_takes := takes_text (64 * 1024);
  short_message_fits := λ m, takes_text_short (64 * 1024) m room_for_short_messages
|}.

(** The world [w] with another private-data table. *)
Definition with_table_query (w : World)
    (query : string → string → string → string → result (option string)) : World := {|
  OpenAI_new := OpenAI_new w;
  chat_completions_create := chat_completions_create w;
  anthropic_Client := anthropic_Client w;
  messages_create := messages_create w;
  requests_post := requests_post w;
  table_query := query;
  str_list := str_list w;
  pipe_takes := pipe_takes w;
  short_message_fits := short_message_fits w
|}.

(** The private-data lookup fails for one company only; every backend
    answers ok. *)
Definition lookup_fails_for (company : string) : World :=
  with_table_query (stub_world "ok") (λ _ _ _ name,
    if decide (name = company) then Raise (Exn ClientError "AccessDenied") else Ok None).

(** The perplexity endpoint answers [response]; the other backends
    cannot be reached. *)
Definition perplexity_world (response : HTTPResponse) : World := {|
  OpenAI_new := OpenAI_new offline_world;
  chat_completions_create := chat_completions_create offline_world;
  anthropic_Client := anthropic_Client offline_world;
  messages_create := messages_create offline_world;
  requests_post := λ _ _ _ _, Ok response;
  table_query := table_query offline_world;
  str_list := str_list offline_world;
  pipe_takes := pipe_takes offline_world;
  short_message_fits := short_message_fits offline_world
|}.

(** [s * n] *)
Fixpoint repeat_string (n : nat) (s : string) : string :=
  match n with
  | 0 => EmptyString
  | S n' => s +:+ repeat_string n' s
  end.

(** A reply of 70000 characters: more than a pipe of [stub_world] holds. *)
Definition long_reply : string :=
  repeat_string 700
    "0123456789012345678901234567890123456789012345678901234567890123456789012345678901234567890123456789".

(** A key with a NUL character in it. *)
Definition key_with_nul : string := "sk" +:+ String Ascii.zero "test".

(** A request with every key present. *)
Definition request (provider : string) (companies prompts : list string)
    (create_list : bool) : Event := {|
  ev_companies := Some (Many companies);
  ev_prompts := Some (Many prompts);
  ev_provider := Some provider;
  ev_api_key := Some (PyStr " sk-test ");
  ev_number := Some 10%Z;
  ev_create_list := Some create_list;
  ev_private_data := Some false
|}.

(** The request [event] with another value under ['companies'], or under
    ['prompts']. *)
Definition with_companies (event : Event) (v : option str_or_list) : Event := {|
  ev_companies := v;
  ev_prompts := ev_prompts event;
  ev_provider := ev_provider event;
  ev_api_key := ev_api_key event;
  ev_number := ev_number event;
  ev_create_list := ev_create_list event;
  ev_private_data := ev_private_data event
|}.

Definition with_prompts (event : Event) (v : option str_or_list) : Event := {|
  ev_companies := ev_companies event;
  ev_prompts := v;
  ev_provider := ev_provider event;
  ev_api_key := ev_api_key event;
  ev_number := ev_number event;
  ev_create_list := ev_create_list event;
  ev_private_data := ev_private_data event
|}.

(** The companies and the prompts of a request, after the handler has
    made lists of them and filtered these. *)
Definition request_companies (event : Event) : list string :=
  filter_out_empty (ensure_list (default (Many []) (ev_companies event))).

Definition request_prompts (event : Event) : list string :=
  filter_out_empty (ensure_list (default (Many []) (ev_prompts event))).

(** What the [try] block of [sheet_ai_call] computes before it sends. *)
Definition task_result (w : World) (environ : gmap string string)
    (private_data : bool) (model : AIModel) (company prompt : string) : result string :=
  full_prompt ←
    (if private_data
     then private_data_result ← read_dynamo w company;
          Ok (full_prompt_template company prompt
                +:+ " Incorporate this data as a reference: "
                +:+ str_dynamo private_data_result)
     else Ok (full_prompt_template company prompt));
  call w environ model full_prompt.

(** The outcome of the task unit for one company and one prompt. *)
Definition task_outcome (w : World) (environ : gmap string string)
    (private_data : bool) (model : AIModel) (company prompt : string) : cell :=
  match task_result w environ private_data model company prompt with
  | Ok result => CStr result
  | Raise e => CErr ("Error processing " +:+ company +:+ ": " +:+ exn_str e)
  end.

(** The new pipe of a task has room for its outcome. *)
Definition task_fits (w : World) (environ : gmap string string)
    (private_data : bool) (model : AIModel) (company prompt : string) : bool :=
  pipe_takes w [] [task_outcome w environ private_data model company prompt].

(** So has the pipe of every task of the batch. *)
Definition batch_fits (w : World) (environ : gmap string string)
    (companies prompts : list string) (private_data : bool) (model : AIModel) : bool :=
  forallb (λ prompt,
    forallb (λ company, task_fits w environ private_data model company prompt) companies)
    prompts.

(** The keys of a dictionary filled from [l]: first occurrences, in order. *)
Definition add_key (ks : list string) (k : string) : list string :=
  if decide (k ∈ ks) then ks else ks ++ [k].

Definition distinct_keys (l : list string) : list string := foldl add_key [] l.

(** The row of one company: its name, then its outcome for each prompt. *)
Definition grid_row (w : World) (environ : gmap string string) (private_data : bool)
    (model : AIModel) (prompts : list string) (company : string) : list cell :=
  CStr company :: map (task_outcome w environ private_data model company) prompts.

(** The response of a successful batch. *)
Definition ok_response (grid : list (list cell)) (companies prompts : list string)
    : Response := {|
  statusCode := 200;
  headers := [("Content-Type", "application/json")];
  body := BodyResult {| data := grid;
                        metadata := {| companies := companies; prompts := prompts |} |}
|}.

(** The response of an aborted batch. *)
Definition error_response (error : string) : Response := {|
  statusCode := 500;
  headers := [("Content-Type", "application/json")];
  body := BodyError error
|}.

(** The answer of the handler for the way its batch ends, [environ] being
    the environment the handler leaves. *)
Definition answer (environ : gmap string string)
    (batch : run (list Pipe) (result BatchResult)) : run (gmap string string) Response :=
  match batch with
  | Ends (Ok result) _ =>
      Ends {| statusCode := 200;
              headers := [("Content-Type", "application/json")];
              body := BodyResult result |} environ
  | Ends (Raise e) _ => Ends (error_response (exn_str e)) environ
  | Hangs => Hangs
  end.

(** A pipe whose child has sent [o] and closed its end. *)
Definition delivered (o : cell) : Pipe := {| buffer := [[o]]; closed := true |}.

(** The three loop bodies of [parallel_ai_call], named. *)
Definition start_company (w : World) (environ : gmap string string) (prompt : string)
    (private_data : bool) (model : AIModel)
    : list Process * dict nat → string → Proc (list Process * dict nat) :=
  λ '(processes, parent_connections) company,
  conn ← Pipe_new;
  let parent_connections := dict_setitem parent_connections company conn in
  process ← Process_start
              (sheet_ai_call w environ company prompt private_data model conn);
  let processes := processes ++ [process] in
  mret (processes, parent_connections).

Definition join_process (_ : unit) (process : Process) : Proc unit :=
  Process_join process.

Definition collect_company (company_results : dict (list cell)) (item : string * nat)
    : Proc (dict (list cell)) :=
  let '(company, conn) := item in
  received ← conn_recv conn;
  result ← lift (index0 received);
  lift (dict_append company_results company result).

Definition wave (w : World) (environ : gmap string string) (companies : list string)
    (private_data : bool) (model : AIModel)
    (company_results : dict (list cell)) (prompt : string) : Proc (dict (list cell)) :=
  '(processes, parent_connections) ←
    proc_for companies (start_company w environ prompt private_data model) ([], []);
  _ ← proc_for processes join_process ();
  proc_for parent_connections collect_company company_results.

(** A dictionary with the keys [ks], in this order, and the rows [rows]. *)
Definition dict_of {V} (rows : string → V) (ks : list string) : dict V :=
  (λ k, (k, rows k)) <$> ks.

(** The parent's connections after the processes of a wave have ended:
    each names its own pipe, which holds the outcome of its company. *)
Definition started (o : string → cell) (parent_connections : dict nat)
    (ps : list Pipe) : Prop :=
  NoDup parent_connections.*2
  ∧ ∀ k conn, (k, conn) ∈ parent_connections → ps !! conn = Some (delivered (o k)).

(** The computation returned: it raised nothing. *)
Definition is_Some_result {A} (r : result A) : Prop :=
  match r with
  | Ok _ => True
  | Raise _ => False
  end.

(** [s.count(c)] for a character [c]. *)
Fixpoint count_char (c : ascii) (s : string) : nat :=
  match s with
  | EmptyString => 0
  | String c' s' => (if Ascii.eqb c' c then 1 else 0) + count_char c s'
  end.



(** A name that [os.environ] takes: not empty, without NUL and without an
    equals sign. *)
Definition legal_name (name : list N) : bool :=
  match name with
  | [] => false
  | _ => negb (existsb (N.eqb 0) name) && negb (existsb (N.eqb 61) name)
  end.

(** A pipe whose message the parent has received. *)
Definition drained : Pipe := {| buffer := []; closed := true |}.

(** The store after the parent has received from the connection [conn]. *)
Definition drain (ps : list Pipe) (conn : nat) : list Pipe := <[conn := drained]> ps.


(** ** Strings *)

Lemma string_examples :
  strip "  a b	 " = "a b" ∧ strip "   " = "" ∧ split "," "A, B,,C" = ["A"; " B"; ""; "C"]
  ∧ split "," "" = [""] ∧ str_int 10 = "10" ∧ str_int (-3) = "-3"
  ∧ utf8 (upper_points "grok") = "GROK" ∧ lower "OpenAI" = "openai"
  ∧ str_names ["Foo"; "Bar"] = "['Foo', 'Bar']" ∧ str_names [] = "[]".
Proof. vm_compute. done. Qed.

(** Upper-casing beyond the letters a to z: the sharp s, the micro sign and
    the y with diaeresis, and the bytes of the last two. *)
Lemma upper_examples :
  upper_points (String (Ascii.ascii_of_N 223) "x") = [83; 83; 88]%N
  ∧ upper_points (String (Ascii.ascii_of_N 181) "") = [924]%N
  ∧ upper_points (String (Ascii.ascii_of_N 255) "") = [376]%N
  ∧ points (utf8 [924; 376]%N) = [206; 156; 197; 184]%N
  ∧ upper_points (String (Ascii.ascii_of_N 233) "") = [201]%N
  ∧ points (utf8 [201]%N) = [195; 137]%N.
Proof. vm_compute. done. Qed.

Lemma truthy_true (s : string) : truthy s = true ↔ s ≠ "".
Proof. destruct s; simpl; split; congruence. Qed.


Lemma append_loop_map {A B} (f : A → B) (l : list A) (acc : list B) :
  foldl (λ acc x, acc ++ [f x]) acc l = acc ++ map f l.
Proof.
  revert acc. induction l as [|x l IH]; intros acc; simpl.
  - by rewrite app_nil_r.
  - rewrite IH. by rewrite <- app_assoc.
Qed.

(** ** Dictionaries *)

Lemma keys_setitem {V} (d : dict V) k v : keys (dict_setitem d k v) = add_key (keys d) k.
Proof.
  unfold keys, add_key. induction d as [|[k' v'] d IH]; csimpl; [done|].
  destruct (decide (k' = k)) as [->|Hne]; csimpl.
  - rewrite decide_True by (by left). done.
  - rewrite IH. destruct (decide (k ∈ d.*1)) as [Hin|Hnin].
    + rewrite decide_True by (by right). done.
    + rewrite decide_False; [done|]. rewrite elem_of_cons. intros [?|?]; congruence.
Qed.

Lemma add_key_NoDup ks k : NoDup ks → NoDup (add_key ks k).
Proof.
  intros Hnd. unfold add_key. case_decide as Hk; [done|].
  apply NoDup_app. split_and!; [done | | apply NoDup_singleton].
  intros x Hx ->%list_elem_of_singleton. done.
Qed.

Lemma foldl_add_key_NoDup l ks : NoDup ks → NoDup (foldl add_key ks l).
Proof.
  revert ks. induction l as [|k l IH]; intros ks Hnd; simpl; [done|].
  apply IH. by apply add_key_NoDup.
Qed.

Lemma distinct_keys_NoDup l : NoDup (distinct_keys l).
Proof. apply foldl_add_key_NoDup. constructor. Qed.

Lemma foldl_add_key_fresh l ks :
  NoDup l → (∀ k, k ∈ l → k ∉ ks) → foldl add_key ks l = ks ++ l.
Proof.
  revert ks. induction l as [|k l IH]; intros ks Hnd Hfresh; simpl.
  - by rewrite app_nil_r.
  - apply NoDup_cons in Hnd as [Hk Hnd].
    unfold add_key at 2. rewrite decide_False by (apply Hfresh; by left).
    rewrite IH; [by rewrite <- app_assoc | done |].
    intros k' Hk' [Hin| ->%list_elem_of_singleton]%elem_of_app; [|done].
    revert Hin. apply Hfresh. by right.
Qed.

Lemma distinct_keys_id l : NoDup l → distinct_keys l = l.
Proof.
  intros Hnd. unfold distinct_keys. rewrite foldl_add_key_fresh; [done..|].
  intros k _ Hk. by apply elem_of_nil in Hk.
Qed.

Lemma foldl_add_key_elem l ks x : x ∈ foldl add_key ks l ↔ x ∈ ks ∨ x ∈ l.
Proof.
  revert ks. induction l as [|k l IH]; intros ks; simpl.
  - split; [by left | intros [H|H]; [done | by apply elem_of_nil in H]].
  - rewrite IH, elem_of_cons. unfold add_key. case_decide as Hk.
    + split; [intros [H|H]; auto | intros [H|[->|H]]; auto].
    + rewrite elem_of_app, list_elem_of_singleton. tauto.
Qed.

Lemma distinct_keys_elem l x : x ∈ distinct_keys l ↔ x ∈ l.
Proof.
  unfold distinct_keys. rewrite foldl_add_key_elem. split; [|by right].
  intros [H|H]; [by apply elem_of_nil in H | done].
Qed.

Lemma distinct_keys_submseteq l : distinct_keys l ⊆+ l.
Proof.
  apply NoDup_submseteq; [apply distinct_keys_NoDup|].
  intros x. by rewrite distinct_keys_elem.
Qed.

(** A list that repeats a name has fewer distinct keys than entries. *)
Lemma distinct_keys_length_dup l :
  ¬ NoDup l → (length (distinct_keys l) < length l)%nat.
Proof.
  intros Hdup. pose proof (distinct_keys_submseteq l) as Hsub.
  pose proof (submseteq_length _ _ Hsub) as Hle.
  destruct (decide (length l ≤ length (distinct_keys l))%nat) as [Hge|]; [|lia].
  destruct Hdup. eapply NoDup_Permutation_proper; [|apply (distinct_keys_NoDup l)].
  symmetry. by apply submseteq_length_Permutation.
Qed.


(** ** Pipes *)

Lemma conn_send_open w ps conn p obj :
  ps !! conn = Some p → closed p = false → pipe_takes w (buffer p) obj = true →
  conn_send w conn obj ps
  = Ends (Ok ()) (<[conn := {| buffer := buffer p ++ [obj]; closed := false |}]> ps).
Proof. intros Hp Hopen Hroom. unfold conn_send. by rewrite Hp, Hopen, Hroom. Qed.

Lemma conn_send_full w ps conn p obj :
  ps !! conn = Some p → closed p = false → pipe_takes w (buffer p) obj = false →
  conn_send w conn obj ps = Hangs.
Proof. intros Hp Hopen Hroom. unfold conn_send. by rewrite Hp, Hopen, Hroom. Qed.

Lemma conn_close_run ps conn p :
  ps !! conn = Some p →
  conn_close conn ps = Ends (Ok ()) (<[conn := {| buffer := buffer p; closed := true |}]> ps).
Proof. intros Hp. unfold conn_close. by rewrite Hp. Qed.

(** Send on the open pipe [conn], which has room, then close it. *)
Ltac send_and_close Hp Hopen Hroom :=
  rewrite (conn_send_open _ _ _ _ _ Hp Hopen Hroom); simpl;
  erewrite conn_close_run by (apply list_lookup_insert_eq; by eapply lookup_lt_Some);
  simpl; by rewrite list_insert_insert_eq.

(** ** The task unit *)

Lemma sheet_ai_call_run w environ company prompt private_data model conn ps p :
  ps !! conn = Some p → closed p = false →
  pipe_takes w (buffer p) [task_outcome w environ private_data model company prompt] = true →
  sheet_ai_call w environ company prompt private_data model conn ps
  = Ends (Ok ())
      (<[conn := {| buffer := buffer p
                     ++ [[task_outcome w environ private_data model company prompt]];
                   closed := true |}]> ps).
Proof.
  intros Hp Hopen. unfold task_outcome, task_result.
  unfold sheet_ai_call, proc_finally, proc_try_except.
  unfold mbind, mret, proc_mbind, proc_mret, proc_bind, proc_ret, lift, result_bind.
  destruct private_data; [destruct (read_dynamo w company) as [v|e]|]; simpl;
    try (match goal with
         | |- context [call ?w ?env ?m ?s] => destruct (call w env m s)
         end; simpl);
    intros Hroom; send_and_close Hp Hopen Hroom.
Qed.

(** A task whose outcome the pipe does not take never ends: it blocks in
    [send], in the [try] or in the [except]. *)
Lemma sheet_ai_call_blocks w environ company prompt private_data model conn ps p :
  ps !! conn = Some p → closed p = false →
  pipe_takes w (buffer p) [task_outcome w environ private_data model company prompt] = false →
  sheet_ai_call w environ company prompt private_data model conn ps = Hangs.
Proof.
  intros Hp Hopen. unfold task_outcome, task_result.
  unfold sheet_ai_call, proc_finally, proc_try_except.
  unfold mbind, mret, proc_mbind, proc_mret, proc_bind, proc_ret, lift, result_bind.
  destruct private_data; [destruct (read_dynamo w company) as [v|e]|]; simpl;
    try (match goal with
         | |- context [call ?w ?env ?m ?s] => destruct (call w env m s)
         end; simpl);
    intros Hroom; by rewrite (conn_send_full _ _ _ _ _ Hp Hopen Hroom).
Qed.

(** ** The waves *)

Lemma parallel_ai_call_waves w environ companies prompts private_data model :
  parallel_ai_call w environ companies prompts private_data model
  = (company_results ←
       proc_for prompts (wave w environ companies private_data model)
         (dict_comprehension (λ company, [CStr company]) companies);
     mret {| data := values company_results;
             metadata := {| lambda_function.companies := companies;
                            lambda_function.prompts := prompts |} |}).
Proof. reflexivity. Qed.

Lemma dict_setitem_dict_of {V} (rows : string → V) ks k :
  dict_setitem (dict_of rows ks) k (rows k) = dict_of rows (add_key ks k).
Proof.
  unfold dict_of, add_key. induction ks as [|k' ks IH]; csimpl; [done|].
  destruct (decide (k' = k)) as [->|Hne].
  - rewrite decide_True by (by left). done.
  - rewrite IH. destruct (decide (k ∈ ks)) as [Hin|Hnin].
    + rewrite decide_True by (by right). done.
    + rewrite decide_False; [done|]. rewrite elem_of_cons. intros [?|?]; congruence.
Qed.

Lemma dict_comprehension_dict_of {V} (rows : string → V) l :
  dict_comprehension rows l = dict_of rows (distinct_keys l).
Proof.
  unfold dict_comprehension, distinct_keys.
  change (@nil (string * V)) with (dict_of rows []).
  generalize (@nil string) as ks.
  induction l as [|k l IH]; intros ks; simpl; [done|].
  by rewrite dict_setitem_dict_of, IH.
Qed.

Lemma dict_append_dict_of {V} (rows : string → list V) ks k x :
  NoDup ks → k ∈ ks →
  dict_append (dict_of rows ks) k x
  = Ok (dict_of (λ k', if decide (k' = k) then rows k' ++ [x] else rows k') ks).
Proof.
  unfold dict_of. induction ks as [|k' ks IH]; intros Hnd Hin; csimpl.
  - by apply elem_of_nil in Hin.
  - apply NoDup_cons in Hnd as [Hk' Hnd]. destruct (decide (k' = k)) as [->|Hne].
    + do 2 f_equal. apply list_fmap_ext. intros i k' Hi.
      rewrite decide_False; [done|]. intros ->. apply Hk'.
      by eapply list_elem_of_lookup_2.
    + apply elem_of_cons in Hin as [->|Hin]; [done|].
      rewrite IH by done. done.
Qed.

Lemma elem_of_dict_setitem {V} (d : dict V) k v k' v' :
  (k', v') ∈ dict_setitem d k v → (k' = k ∧ v' = v) ∨ (k', v') ∈ d.
Proof.
  induction d as [|[k0 v0] d IH]; simpl.
  - intros [=-> ->]%list_elem_of_singleton. by left.
  - destruct (decide (k0 = k)) as [->|Hne].
    + intros [[=-> ->]|Hin]%elem_of_cons; [by left | right; by right].
    + intros [[=-> ->]|Hin]%elem_of_cons; [right; by left|].
      destruct (IH Hin) as [?|?]; [by left | right; by right].
Qed.

Lemma dict_setitem_values_NoDup {V} (d : dict V) k v :
  NoDup d.*2 → v ∉ d.*2 → NoDup (dict_setitem d k v).*2.
Proof.
  induction d as [|[k0 v0] d IH]; csimpl; intros Hnd Hv.
  - apply NoDup_singleton.
  - apply NoDup_cons in Hnd as [Hv0 Hnd]. apply not_elem_of_cons in Hv as [Hne Hv].
    destruct (decide (k0 = k)) as [->|Hk]; csimpl.
    + by constructor.
    + constructor; [|by apply IH].
      intros ((k1 & v1) & -> & Hin)%list_elem_of_fmap. simpl in *.
      apply elem_of_dict_setitem in Hin as [[_ ->]|Hin]; [done|].
      apply Hv0. by apply (list_elem_of_fmap_2 snd) in Hin.
Qed.

Lemma dict_setitem_fresh {V} (d : dict V) k v :
  k ∉ keys d → dict_setitem d k v = d ++ [(k, v)].
Proof.
  unfold keys. induction d as [|[k' v'] d IH]; csimpl; intros Hk; [done|].
  apply not_elem_of_cons in Hk as [Hne Hk].
  rewrite decide_False by done. by rewrite IH.
Qed.

Lemma proc_for_cons {A B} (x : A) (l : list A) (f : B → A → Proc B) (acc : B) ps :
  proc_for (x :: l) f acc ps
  = match f acc x ps with
    | Ends (Ok acc') ps' => proc_for l f acc' ps'
    | Ends (Raise e) ps' => Ends (Raise e) ps'
    | Hangs => Hangs
    end.
Proof. reflexivity. Qed.

Lemma start_company_run w environ prompt private_data model procs pcs company ps :
  task_fits w environ private_data model company prompt = true →
  start_company w environ prompt private_data model (procs, pcs) company ps
  = Ends (Ok (procs ++ [{| ended := true |}], dict_setitem pcs company (length ps)))
      (ps ++ [delivered (task_outcome w environ private_data model company prompt)]).
Proof.
  intros Hfits. unfold start_company, Pipe_new, Process_start.
  unfold mbind, mret, proc_mbind, proc_mret, proc_bind, proc_ret.
  erewrite sheet_ai_call_run; [|by apply list_lookup_middle|done|exact Hfits].
  f_equal. rewrite insert_app_r_alt by done. by rewrite Nat.sub_diag.
Qed.

(** A task that does not fit leaves its process blocked and its pipe
    empty. *)
Lemma start_company_blocks w environ prompt private_data model procs pcs company ps :
  task_fits w environ private_data model company prompt = false →
  start_company w environ prompt private_data model (procs, pcs) company ps
  = Ends (Ok (procs ++ [{| ended := false |}], dict_setitem pcs company (length ps)))
      (ps ++ [{| buffer := []; closed := false |}]).
Proof.
  intros Hfits. unfold start_company, Pipe_new, Process_start.
  unfold mbind, mret, proc_mbind, proc_mret, proc_bind, proc_ret.
  erewrite sheet_ai_call_blocks; [done|by apply list_lookup_middle|done|exact Hfits].
Qed.

Lemma started_start_company o pcs ps company :
  started o pcs ps →
  started o (dict_setitem pcs company (length ps)) (ps ++ [delivered (o company)]).
Proof.
  intros [Hnd Hps]. split.
  - apply dict_setitem_values_NoDup; [done|].
    intros ((k & conn) & Heq & Hin)%list_elem_of_fmap. simpl in *.
    apply Hps, lookup_lt_Some in Hin. lia.
  - intros k conn [[-> ->]|Hin]%elem_of_dict_setitem.
    + by apply list_lookup_middle.
    + by apply lookup_app_l_Some, Hps.
Qed.

(** The processes of a wave, whether their outcomes fit or not: one for
    each company of the list, ended exactly when its outcome fits. *)
Lemma start_loop_processes w environ prompt private_data model companies procs pcs ps :
  ∃ pcs' ps',
    proc_for companies (start_company w environ prompt private_data model) (procs, pcs) ps
    = Ends (Ok (procs ++ ((λ c, {| ended := task_fits w environ private_data model c prompt |})
                           <$> companies), pcs')) ps'.
Proof.
  revert procs pcs ps. induction companies as [|c cs IH]; intros procs pcs ps.
  - exists pcs, ps. simpl. by rewrite app_nil_r.
  - rewrite proc_for_cons.
    destruct (task_fits w environ private_data model c prompt) eqn:Hfits.
    + rewrite (start_company_run _ _ _ _ _ _ _ _ _ Hfits). simpl.
      edestruct IH as (pcs' & ps' & ->). exists pcs', ps'.
      rewrite <- app_assoc. simpl. by rewrite Hfits.
    + rewrite (start_company_blocks _ _ _ _ _ _ _ _ _ Hfits). simpl.
      edestruct IH as (pcs' & ps' & ->). exists pcs', ps'.
      rewrite <- app_assoc. simpl. by rewrite Hfits.
Qed.

Lemma start_loop_run w environ prompt private_data model companies procs pcs ps :
  forallb (λ c, task_fits w environ private_data model c prompt) companies = true →
  started (λ k, task_outcome w environ private_data model k prompt) pcs ps →
  ∃ pcs',
    proc_for companies (start_company w environ prompt private_data model) (procs, pcs) ps
    = Ends (Ok (procs ++ replicate (length companies) {| ended := true |}, pcs'))
        (ps ++ ((λ c, delivered (task_outcome w environ private_data model c prompt))
                  <$> companies))
    ∧ keys pcs' = foldl add_key (keys pcs) companies
    ∧ started (λ k, task_outcome w environ private_data model k prompt) pcs'
        (ps ++ ((λ c, delivered (task_outcome w environ private_data model c prompt))
                  <$> companies))
    ∧ (∀ conn, conn ∈ pcs'.*2 → conn ∈ pcs.*2 ∨ (length ps ≤ conn)%nat)
    ∧ (NoDup companies → (∀ c, c ∈ companies → c ∉ keys pcs) →
       pcs' = pcs ++ zip companies (seq (length ps) (length companies))).
Proof.
  revert procs pcs ps. induction companies as [|c cs IH]; intros procs pcs ps Hfits Hst.
  - exists pcs. simpl. rewrite !app_nil_r. split_and!; [done..|by left|done].
  - simpl in Hfits. apply andb_prop in Hfits as [Hc Hcs].
    rewrite proc_for_cons, (start_company_run _ _ _ _ _ _ _ _ _ Hc).
    apply (started_start_company _ _ _ c) in Hst.
    destruct (IH (procs ++ [{| ended := true |}]) _ _ Hcs Hst)
      as (pcs' & Hrun & Hkeys & Hst' & Hids & Hfresh).
    exists pcs'. rewrite Hrun, <- !app_assoc. split_and!.
    + done.
    + by rewrite Hkeys, keys_setitem.
    + by rewrite <- app_assoc in Hst'.
    + intros conn [Hin|Hge]%Hids.
      * apply list_elem_of_fmap in Hin as ((k & conn') & -> & Hin).
        apply elem_of_dict_setitem in Hin as [[_ ->]|Hin]; simpl; [by right|].
        left. by apply (list_elem_of_fmap_2 snd) in Hin.
      * right. rewrite length_app in Hge. simpl in Hge. lia.
    + intros [Hnc Hnd]%NoDup_cons Hnew.
      rewrite Hfresh; [|done|].
      * rewrite dict_setitem_fresh by (apply Hnew; by left).
        rewrite <- app_assoc, length_app. simpl.
        by rewrite Nat.add_1_r.
      * intros c' Hc'. rewrite keys_setitem. unfold add_key.
        rewrite decide_False by (apply Hnew; by left).
        intros [Hin| ->%list_elem_of_singleton]%elem_of_app; [|done].
        revert Hin. apply Hnew. by right.
Qed.

(** Joining processes that have all ended. *)
Lemma join_loop_run n ps :
  proc_for (replicate n {| ended := true |}) join_process () ps = Ends (Ok ()) ps.
Proof. induction n as [|n IH]; [done|]. simpl. exact IH. Qed.

(** Joining blocks at the first process that has not ended. *)
Lemma join_loop_blocks processes ps :
  {| ended := false |} ∈ processes →
  proc_for processes join_process () ps = Hangs.
Proof.
  induction processes as [|[[]] processes IH]; intros Hin.
  - by apply elem_of_nil in Hin.
  - apply elem_of_cons in Hin as [?|Hin]; [done|]. simpl. by apply IH.
  - done.
Qed.

Lemma conn_recv_delivered ps conn o :
  ps !! conn = Some (delivered o) →
  conn_recv conn ps = Ends (Ok [o]) (<[conn := {| buffer := []; closed := true |}]> ps).
Proof. intros Hp. unfold conn_recv. by rewrite Hp. Qed.


Lemma length_foldl_drain ids ps : length (foldl drain ps ids) = length ps.
Proof.
  revert ps. induction ids as [|i ids IH]; intros ps; simpl; [done|].
  rewrite IH. apply length_insert.
Qed.

Lemma lookup_foldl_drain ids ps i :
  foldl drain ps ids !! i
  = if decide (i ∈ ids) then (λ _, drained) <$> ps !! i else ps !! i.
Proof.
  revert ps. induction ids as [|c ids IH]; intros ps.
  - destruct (decide (i ∈ [])) as [Hin|]; [by apply elem_of_nil in Hin | done].
  - change (foldl drain ps (c :: ids)) with (foldl drain (drain ps c) ids).
    rewrite IH. unfold drain. destruct (decide (c = i)) as [->|Hne].
    + destruct (decide (i ∈ i :: ids)) as [_|Hnin]; [|destruct Hnin; by left].
      destruct (decide (i < length ps)%nat) as [Hlt|Hge].
      * rewrite list_lookup_insert_eq by done.
        destruct (lookup_lt_is_Some_2 ps i Hlt) as [p ->]. by case_decide.
      * rewrite list_insert_ge by lia. rewrite (lookup_ge_None_2 ps i) by lia.
        by case_decide.
    + rewrite list_lookup_insert_ne by done.
      destruct (decide (i ∈ ids)) as [Hin|Hnin].
      * destruct (decide (i ∈ c :: ids)) as [_|Hnin]; [done|]. destruct Hnin. by right.
      * destruct (decide (i ∈ c :: ids)) as [Hin|_]; [|done].
        apply elem_of_cons in Hin as [?|?]; done.
Qed.

(** The collecting loop: it appends to the row of each company of the wave
    its outcome, and leaves the pipes it read from empty. *)
Lemma collect_loop_run o ks pcs rows ps :
  NoDup ks → NoDup pcs.*1 → (∀ k, k ∈ pcs.*1 → k ∈ ks) → started o pcs ps →
  proc_for pcs collect_company (dict_of rows ks) ps
  = Ends (Ok (dict_of (λ k, if decide (k ∈ pcs.*1) then rows k ++ [o k] else rows k) ks))
      (foldl drain ps pcs.*2).
Proof.
  intros Hks. revert rows ps.
  induction pcs as [|[k conn] pcs IH]; intros rows ps Hnd Hin [Hids Hps].
  - simpl. unfold proc_ret. do 2 f_equal.
  - change (NoDup (k :: pcs.*1)) in Hnd. change (NoDup (conn :: pcs.*2)) in Hids.
    apply NoDup_cons in Hnd as [Hk Hnd]. apply NoDup_cons in Hids as [Hconn Hids].
    rewrite proc_for_cons. unfold collect_company, mbind, proc_mbind, proc_bind, lift.
    rewrite (conn_recv_delivered _ _ (o k)) by (apply Hps; by left). simpl.
    rewrite dict_append_dict_of by (done || apply Hin; by left).
    fold collect_company.
    rewrite IH.
    + f_equal. f_equal. apply list_fmap_ext. intros _ k' _.
      f_equal. change (((k, conn) :: pcs).*1) with (k :: pcs.*1).
      destruct (decide (k' = k)) as [->|Hne].
      * rewrite decide_False by done. rewrite decide_True by (by left). done.
      * destruct (decide (k' ∈ pcs.*1)) as [Hin'|Hnin].
        -- rewrite decide_True by (by right). done.
        -- rewrite decide_False; [done|]. rewrite elem_of_cons. intros [?|?]; done.
    + done.
    + intros k' Hk'. apply Hin. by right.
    + split; [done|]. intros k' conn' Hin'.
      rewrite list_lookup_insert_ne; [apply Hps; by right|].
      intros ->. apply Hconn. by apply (list_elem_of_fmap_2 snd) in Hin'.
Qed.

Lemma started_nil o ps : started o [] ps.
Proof.
  split; [constructor|]. intros k conn Hin. by apply elem_of_nil in Hin.
Qed.

(** One wave whose outcomes fit appends to the row of every company its
    outcome for the prompt of the wave; every entry of the list, repeated
    or not, got a pipe of its own after those of the store. *)
Lemma wave_run w environ companies private_data model rows prompt ps :
  forallb (λ c, task_fits w environ private_data model c prompt) companies = true →
  ∃ new,
    wave w environ companies private_data model
      (dict_of rows (distinct_keys companies)) prompt ps
    = Ends (Ok (dict_of (λ k, rows k ++ [task_outcome w environ private_data model k prompt])
                  (distinct_keys companies)))
        (ps ++ new)
    ∧ length new = length companies
    ∧ Forall (λ p, closed p = true) new
    ∧ (NoDup companies → new = replicate (length companies) drained).
Proof.
  intros Hfits.
  destruct (start_loop_run w environ prompt private_data model companies [] [] ps Hfits)
    as (pcs & Hrun & Hkeys & Hst & Hids & Hfresh); [apply started_nil|].
  change (foldl add_key (keys []) companies) with (distinct_keys companies) in Hkeys.
  unfold keys in Hkeys.
  set (D := (λ c, delivered (task_outcome w environ private_data model c prompt))
              <$> companies) in *.
  assert (Hwave :
    wave w environ companies private_data model
      (dict_of rows (distinct_keys companies)) prompt ps
    = Ends (Ok (dict_of (λ k, rows k ++ [task_outcome w environ private_data model k prompt])
                  (distinct_keys companies)))
        (foldl drain (ps ++ D) pcs.*2)).
  { unfold wave, mbind, proc_mbind, proc_bind. unfold dict in *.
    rewrite Hrun. simpl. rewrite join_loop_run. fold (dict (list cell)).
    rewrite (collect_loop_run (λ k, task_outcome w environ private_data model k prompt)
               (distinct_keys companies) pcs rows);
      [|apply distinct_keys_NoDup|rewrite Hkeys; apply distinct_keys_NoDup
       |by rewrite Hkeys|done].
    do 2 f_equal. apply list_fmap_ext. intros _ k Hk%list_elem_of_lookup_2.
    rewrite Hkeys. by rewrite decide_True. }
  rewrite Hwave. clear Hwave Hrun.
  assert (Hlen : length (foldl drain (ps ++ D) pcs.*2) = length ps + length companies).
  { rewrite length_foldl_drain, length_app. unfold D. by rewrite length_fmap. }
  assert (Hold : ∀ i, (i < length ps)%nat → i ∉ pcs.*2).
  { intros i Hlt [Hin|Hge]%Hids; [by apply elem_of_nil in Hin | lia]. }
  exists (drop (length ps) (foldl drain (ps ++ D) pcs.*2)). split_and!.
  - f_equal.
    rewrite <- (take_drop (length ps) (foldl drain (ps ++ D) pcs.*2)) at 1.
    f_equal. apply list_eq. intros i.
    destruct (decide (i < length ps)%nat) as [Hlt|Hge].
    + rewrite lookup_take_lt by done. rewrite lookup_foldl_drain.
      rewrite decide_False by (by apply Hold). by apply lookup_app_l.
    + rewrite lookup_take_ge by lia. symmetry. apply lookup_ge_None_2. lia.
  - rewrite length_drop. lia.
  - apply Forall_lookup. intros j p. rewrite lookup_drop, lookup_foldl_drain.
    rewrite lookup_app_r by lia.
    replace (length ps + j - length ps) with j by lia.
    unfold D. rewrite list_lookup_fmap.
    destruct (companies !! j); simpl; case_decide; intros [= <-]; done.
  - intros Hnd. rewrite Hfresh in * by (done || intros c _ Hc; by apply elem_of_nil in Hc).
    simpl. rewrite snd_zip by (rewrite length_seq; lia).
    apply list_eq. intros j. rewrite lookup_drop, lookup_foldl_drain.
    rewrite lookup_app_r by lia.
    replace (length ps + j - length ps) with j by lia.
    unfold D. rewrite list_lookup_fmap.
    destruct (decide (j < length companies)%nat) as [Hlt|Hge].
    + rewrite decide_True by (apply elem_of_seq; lia).
      destruct (lookup_lt_is_Some_2 companies j Hlt) as [c ->]. simpl.
      symmetry. by apply lookup_replicate_2.
    + rewrite (lookup_ge_None_2 companies j) by lia. simpl.
      rewrite (lookup_ge_None_2 (replicate _ _)) by (rewrite length_replicate; lia).
      by case_decide.
Qed.

(** A wave with an outcome that does not fit: the child stays in [send],
    and the parent in [join]. *)
Lemma wave_blocks w environ companies private_data model company_results prompt ps :
  forallb (λ c, task_fits w environ private_data model c prompt) companies = false →
  wave w environ companies private_data model company_results prompt ps = Hangs.
Proof.
  intros Hfits.
  assert (Hin : {| ended := false |}
                ∈ (λ c, {| ended := task_fits w environ private_data model c prompt |})
                    <$> companies).
  { apply list_elem_of_fmap.
    induction companies as [|c cs IH]; [done|]. simpl in Hfits.
    destruct (task_fits w environ private_data model c prompt) eqn:Hc.
    - destruct (IH Hfits) as (c' & Heq & Hin). exists c'. split; [done|by right].
    - exists c. split; [by rewrite Hc|by left]. }
  unfold wave, mbind, proc_mbind, proc_bind.
  destruct (start_loop_processes w environ prompt private_data model companies [] [] ps)
    as (pcs & ps' & Hrun).
  unfold dict in *. rewrite Hrun. simpl. by rewrite join_loop_blocks.
Qed.

Lemma waves_run w environ companies private_data model prompts rows ps :
  batch_fits w environ companies prompts private_data model = true →
  ∃ new,
    proc_for prompts (wave w environ companies private_data model)
      (dict_of rows (distinct_keys companies)) ps
    = Ends (Ok (dict_of
                  (λ k, rows k ++ map (task_outcome w environ private_data model k) prompts)
                  (distinct_keys companies)))
        (ps ++ new)
    ∧ length new = length prompts * length companies
    ∧ Forall (λ p, closed p = true) new
    ∧ (NoDup companies → new = replicate (length prompts * length companies) drained).
Proof.
  revert rows ps. induction prompts as [|prompt prompts IH]; intros rows ps Hfits.
  - exists []. rewrite app_nil_r. split_and!; [|done..].
    simpl. unfold proc_ret. do 2 f_equal. apply list_fmap_ext. intros _ k _.
    by rewrite app_nil_r.
  - change (batch_fits w environ companies (prompt :: prompts) private_data model)
      with (forallb (λ c, task_fits w environ private_data model c prompt) companies
            && batch_fits w environ companies prompts private_data model) in Hfits.
    apply andb_prop in Hfits as [Hfit Hfits].
    rewrite proc_for_cons.
    destruct (wave_run w environ companies private_data model rows prompt ps Hfit)
      as (new1 & Hrun1 & Hlen1 & Hcl1 & Hnd1).
    destruct (IH (λ k, rows k ++ [task_outcome w environ private_data model k prompt])
                (ps ++ new1) Hfits) as (new2 & Hrun2 & Hlen2 & Hcl2 & Hnd2).
    exists (new1 ++ new2). rewrite Hrun1, Hrun2, <- app_assoc. split_and!.
    + do 2 f_equal. apply list_fmap_ext. intros _ k _. by rewrite <- app_assoc.
    + rewrite length_app. simpl. lia.
    + by apply Forall_app.
    + intros Hnd. rewrite (Hnd1 Hnd), (Hnd2 Hnd). by rewrite <- replicate_add.
Qed.

Lemma waves_block w environ companies private_data model prompts rows ps :
  batch_fits w environ companies prompts private_data model = false →
  proc_for prompts (wave w environ companies private_data model)
    (dict_of rows (distinct_keys companies)) ps
  = Hangs.
Proof.
  revert rows ps. induction prompts as [|prompt prompts IH]; intros rows ps Hfits;
    [done|].
  rewrite proc_for_cons.
  change (batch_fits w environ companies (prompt :: prompts) private_data model)
    with (forallb (λ c, task_fits w environ private_data model c prompt) companies
          && batch_fits w environ companies prompts private_data model) in Hfits.
  destruct (forallb _ companies) eqn:Hfit.
  - destruct (wave_run w environ companies private_data model rows prompt ps Hfit)
      as (new1 & -> & _). by apply IH.
  - by rewrite wave_blocks.
Qed.

(** The whole batch, when every outcome fits into its pipe: it returns one
    row per distinct company name, in the order of first occurrence, each
    row the name followed by the outcome of the company for each prompt in
    turn; it has added one pipe for each entry and prompt, all closed, and
    all empty when the names differ. *)
Lemma parallel_ai_call_run w environ companies prompts private_data model ps :
  batch_fits w environ companies prompts private_data model = true →
  ∃ new,
    parallel_ai_call w environ companies prompts private_data model ps
    = Ends (Ok {| data := grid_row w environ private_data model prompts
                            <$> distinct_keys companies;
                  metadata := {| lambda_function.companies := companies;
                                 lambda_function.prompts := prompts |} |})
        (ps ++ new)
    ∧ length new = length prompts * length companies
    ∧ Forall (λ p, closed p = true) new
    ∧ (NoDup companies → new = replicate (length prompts * length companies) drained).
Proof.
  intros Hfits.
  destruct (waves_run w environ companies private_data model prompts
              (λ company, [CStr company]) ps Hfits) as (new & Hrun & Hnew).
  exists new. rewrite parallel_ai_call_waves, dict_comprehension_dict_of.
  unfold mbind, proc_mbind, proc_bind. rewrite Hrun. split; [|done].
  unfold mret, proc_mret, proc_ret, values, dict_of, grid_row.
  do 3 f_equal. rewrite <- list_fmap_compose. by apply list_fmap_ext.
Qed.

(** The batch with an outcome that does not fit never returns. *)
Lemma parallel_ai_call_blocks w environ companies prompts private_data model ps :
  batch_fits w environ companies prompts private_data model = false →
  parallel_ai_call w environ companies prompts private_data model ps = Hangs.
Proof.
  intros Hfits.
  rewrite parallel_ai_call_waves, dict_comprehension_dict_of.
  unfold mbind, proc_mbind, proc_bind.
  by rewrite waves_block.
Qed.

(** Outcomes of at most 512 characters fit. *)
Lemma short_outcomes_fit w environ companies prompts private_data model :
  (∀ c q, c ∈ companies → q ∈ prompts →
     (message_text [task_outcome w environ private_data model c q] ≤ 512)%nat) →
  batch_fits w environ companies prompts private_data model = true.
Proof.
  intros Hshort. unfold batch_fits. apply forallb_forall. intros q Hq.
  apply forallb_forall. intros c Hc. apply short_message_fits.
  apply Hshort; by apply list_elem_of_In.
Qed.

Lemma grid_row_length w environ private_data model prompts company :
  length (grid_row w environ private_data model prompts company) = S (length prompts).
Proof. unfold grid_row. simpl. by rewrite length_map. Qed.

Lemma grid_row_cell w environ private_data model prompts company j prompt :
  prompts !! j = Some prompt →
  grid_row w environ private_data model prompts company !! S j
  = Some (task_outcome w environ private_data model company prompt).
Proof.
  intros Hj. unfold grid_row. simpl.
  change (map ?f ?l) with (f <$> l). by rewrite list_lookup_fmap, Hj.
Qed.

(** ** The provider gateway *)

(** Membership in a list that is written out. *)
Ltac in_list := repeat first [apply list_elem_of_here | apply list_elem_of_further].

Lemma list_ascii_of_append s t :
  list_ascii_of_string (s +:+ t) = list_ascii_of_string s ++ list_ascii_of_string t.
Proof. induction s as [|c s IH]; simpl; [done | by rewrite IH]. Qed.

Lemma append_inj_r s1 s2 t : s1 +:+ t = s2 +:+ t → s1 = s2.
Proof.
  intros Heq. apply (f_equal list_ascii_of_string) in Heq.
  rewrite !list_ascii_of_append in Heq. apply app_inv_tail in Heq.
  rewrite <- (string_of_list_ascii_of_string s1), <- (string_of_list_ascii_of_string s2).
  by rewrite Heq.
Qed.



(** *** Stripping *)

Lemma lstrip_head s :
  lstrip s = "" ∨ ∃ c t, lstrip s = String c t ∧ isspace c = false.
Proof.
  induction s as [|c s IH]; simpl; [by left|].
  destruct (isspace c) eqn:Hc; [done|]. right. by exists c, s.
Qed.

Lemma rstrip_keeps_head c s :
  isspace c = false → ∃ r, rstrip (String c s) = String c r.
Proof.
  intros Hc. simpl. destruct (rstrip s); [rewrite Hc|]; by eexists.
Qed.

Lemma rstrip_idempotent s : rstrip (rstrip s) = rstrip s.
Proof.
  induction s as [|c s IH]; simpl; [done|].
  destruct (rstrip s) as [|d r] eqn:Hr.
  - destruct (isspace c) eqn:Hc; simpl; [done|]. by rewrite Hc.
  - change (rstrip (String c (String d r)))
      with (match rstrip (String d r) with
            | EmptyString => if isspace c then EmptyString else String c EmptyString
            | r' => String c r'
            end).
    by rewrite IH.
Qed.

Lemma strip_idempotent s : strip (strip s) = strip s.
Proof.
  unfold strip. destruct (lstrip_head s) as [->|(c & t & -> & Hc)]; [done|].
  destruct (rstrip_keeps_head c t Hc) as [r Hr]. rewrite Hr.
  change (lstrip (String c r)) with (if isspace c then lstrip r else String c r).
  rewrite Hc, <- Hr. apply rstrip_idempotent.
Qed.









Lemma count_char_lstrip c s : (count_char c (lstrip s) ≤ count_char c s)%nat.
Proof.
  induction s as [|c' s IH]; simpl; [done|].
  destruct (isspace c'); simpl; lia.
Qed.

Lemma count_char_rstrip c s : (count_char c (rstrip s) ≤ count_char c s)%nat.
Proof.
  induction s as [|c' s IH]; simpl; [done|].
  destruct (rstrip s) as [|d r]; [destruct (isspace c')|]; simpl in *; lia.
Qed.

Lemma count_char_strip c s : (count_char c (strip s) ≤ count_char c s)%nat.
Proof.
  unfold strip. etrans; [apply count_char_rstrip | apply count_char_lstrip].
Qed.

(** *** Building the model *)

Lemma init_provider provider_name model :
  __init__ provider_name = Ok model →
  provider model = lower provider_name ∧ provider model ∈ valid_providers.
Proof.
  unfold __init__. case_decide as Hin; [|done]. intros [= <-]. by split.
Qed.

Lemma valid_provider_cases p :
  p ∈ valid_providers → p = "openai" ∨ p = "anthropic" ∨ p = "grok" ∨ p = "perplexity".
Proof.
  unfold valid_providers. rewrite !elem_of_cons, elem_of_nil. tauto.
Qed.

(** The variable of each supported provider. *)
Lemma env_var_name_cases self :
  provider self ∈ valid_providers →
  legal_name (env_var_name self) = true
  ∧ (provider self = "openai" ∧ utf8 (env_var_name self) = "OPENAI_API_KEY"
     ∨ provider self = "anthropic" ∧ utf8 (env_var_name self) = "ANTHROPIC_API_KEY"
     ∨ provider self = "grok" ∧ utf8 (env_var_name self) = "GROK_API_KEY"
     ∨ provider self = "perplexity" ∧ utf8 (env_var_name self) = "PERPLEXITY_API_KEY").
Proof.
  destruct self as [p]. simpl.
  intros [-> | [-> | [-> | ->]]]%valid_provider_cases; (split; [by vm_compute|]).
  - left. by vm_compute.
  - right. left. by vm_compute.
  - do 2 right. left. by vm_compute.
  - do 3 right. by vm_compute.
Qed.

(** An unsupported name is refused when the model is built. *)
Lemma init_unsupported provider_name :
  lower provider_name ∉ valid_providers →
  __init__ provider_name
  = Raise (Exn ValueError
      "Unsupported provider. Must be one of: ['openai', 'anthropic', 'grok', 'perplexity']").
Proof. intros Hnin. unfold __init__. by rewrite decide_False. Qed.

(** *** Setting the key *)



(** What a successful [set_api_key] has done. *)
Lemma set_api_key_ok self k environ environ' :
  set_api_key self (PyStr k) environ = Ok environ' →
  strip k ≠ "" ∧ environ' = <[utf8 (env_var_name self) := strip k]> environ.
Proof.
  unfold set_api_key, environ_setitem.
  destruct (Nat.eqb_spec (String.length (strip k)) 0) as [|Hlen]; [done|].
  destruct (_ || _); [done|]. destruct (match env_var_name self with [] => _ | _ => _ end);
    [done|].
  intros [= <-]. split; [|done]. intros Hk. by rewrite Hk in Hlen.
Qed.

Lemma set_api_key_is_string self v environ environ' :
  set_api_key self v environ = Ok environ' → ∃ k, v = PyStr k.
Proof. destruct v; try done. by eexists. Qed.

(** A key of white space alone is refused, with [ValueError]. *)
Lemma set_api_key_blank self environ k :
  strip k = "" →
  set_api_key self (PyStr k) environ
  = Raise (Exn ValueError "API key cannot be empty or whitespace").
Proof. intros Hk. unfold set_api_key. by rewrite Hk. Qed.


(** *** The methods of the providers *)

(** [openai_api_call] catches whatever its calls raise. *)
Lemma openai_api_call_returns w environ self prompt :
  ∃ text, openai_api_call w environ self prompt = Ok text.
Proof.
  unfold openai_api_call, try_except, error_calling, is_Exception.
  destruct (not_key _); [by eexists|].
  destruct (_ ≫= _); by eexists.
Qed.

(** So does [anthropic_api_call]. *)
Lemma anthropic_api_call_returns w environ self prompt model :
  ∃ text, anthropic_api_call w environ self prompt model = Ok text.
Proof.
  unfold anthropic_api_call, try_except, error_calling, is_Exception.
  destruct (environ !! _) as [key|]; [|by eexists].
  destruct (negb _); [by eexists|].
  destruct (_ ≫= _); by eexists.
Qed.

(** [perplexity_api_call] catches the errors of [requests]. *)
Lemma perplexity_api_call_transport w environ self prompt model key e :
  environ !! "PERPLEXITY_API_KEY" = Some key → truthy key = true →
  requests_post w "https://api.perplexity.ai/v1/chat/completions"
    [("Authorization", "Bearer " +:+ key); ("Content-Type", "application/json")]
    model prompt = Raise e →
  is_RequestException e = true →
  perplexity_api_call w environ self prompt model
  = Ok ("Error calling AI service: " +:+ exn_str e).
Proof.
  intros Hkey Htruthy Hpost Hreq. unfold perplexity_api_call.
  rewrite Hkey, Htruthy. simpl. rewrite Hpost. simpl. by rewrite Hreq.
Qed.

(** C10: for a model that [__init__] built, the provider is the lower-cased
    name and one of the four supported ones, the lookup of
    [<provider>_api_call] finds a method, and [call] is that method: the
    branch that answers "Error: Unsupported AI provider" is not taken. *)
Theorem constructed_model_has_its_method provider_name model w environ prompt :
  __init__ provider_name = Ok model →
  provider model = lower provider_name
  ∧ provider model ∈ valid_providers
  ∧ ∃ method,
      getattr w environ model (provider model +:+ "_api_call") = Some method
      ∧ call w environ model prompt = method prompt.
Proof.
  intros [Hlow Hin]%init_provider. split_and!; [done..|].
  unfold call.
  destruct (valid_provider_cases _ Hin) as [Hp|[Hp|[Hp|Hp]]]; rewrite Hp;
    eexists; (split; [reflexivity|reflexivity]).
Qed.

Lemma constructed_model_has_its_method_witness :
  provider {| provider := "openai" |} = lower "OpenAI"
  ∧ provider {| provider := "openai" |} ∈ valid_providers
  ∧ ∃ method,
      getattr (stub_world "ok") ∅ {| provider := "openai" |}
        (provider {| provider := "openai" |} +:+ "_api_call") = Some method
      ∧ call (stub_world "ok") ∅ {| provider := "openai" |} "Hello" = method "Hello".
Proof.
  apply (constructed_model_has_its_method "OpenAI"). vm_compute. reflexivity.
Defined.





(** C4: [grok_api_call] creates the client and sends the request outside its
    [try]: when the request fails, the exception leaves [call]. *)
Theorem grok_call_raises_transport_failure w environ key client prompt e :
  environ !! "GROK_API_KEY" = Some key → truthy key = true →
  OpenAI_new w environ (Some key) (Some "https://api.x.ai/v1") = Ok client →
  chat_completions_create w client "grok-2-latest" prompt = Raise e →
  call w environ {| provider := "grok" |} prompt = Raise e.
Proof.
  intros Hkey Htruthy Hclient Hcreate.
  change (call w environ {| provider := "grok" |} prompt)
    with (grok_api_call w environ {| provider := "grok" |} prompt "grok-model").
  unfold grok_api_call. rewrite Hkey, Htruthy. simpl.
  rewrite Hclient. simpl. by rewrite Hcreate.
Qed.

Lemma grok_call_raises_transport_failure_witness :
  call offline_world {[ "GROK_API_KEY" := "sk-test" ]} {| provider := "grok" |} "Hello"
  = Raise (Exn APIConnectionError "Connection error.").
Proof.
  apply (grok_call_raises_transport_failure offline_world {[ "GROK_API_KEY" := "sk-test" ]}
           "sk-test" {| oa_api_key := Some "sk-test";
                        oa_base_url := Some "https://api.x.ai/v1" |});
    reflexivity.
Defined.

(** ** The task unit and the grid *)

Lemma batch_fits_task w environ companies prompts private_data model company prompt :
  batch_fits w environ companies prompts private_data model = true →
  company ∈ companies → prompt ∈ prompts →
  task_fits w environ private_data model company prompt = true.
Proof.
  unfold batch_fits. intros Hfits Hc%list_elem_of_In Hq%list_elem_of_In.
  rewrite forallb_forall in Hfits. specialize (Hfits prompt Hq).
  rewrite forallb_forall in Hfits. by apply Hfits.
Qed.

(** C2: a task whose outcome its new pipe does not take stays in [send], and
    the batch it belongs to never returns: the parent joins the children
    before it receives from any. *)
Theorem oversized_outcome_blocks_batch w environ company prompt private_data model :
  task_fits w environ private_data model company prompt = false →
  (∀ conn ps, ps !! conn = Some {| buffer := []; closed := false |} →
     sheet_ai_call w environ company prompt private_data model conn ps = Hangs)
  ∧ ∀ companies prompts ps, company ∈ companies → prompt ∈ prompts →
      parallel_ai_call w environ companies prompts private_data model ps = Hangs.
Proof.
  intros Hfits. split.
  - intros conn ps Hp. by eapply sheet_ai_call_blocks.
  - intros companies prompts ps Hc Hq. apply parallel_ai_call_blocks.
    destruct (batch_fits w environ companies prompts private_data model) eqn:Hb; [|done].
    by rewrite (batch_fits_task _ _ _ _ _ _ _ _ Hb Hc Hq) in Hfits.
Qed.

Lemma oversized_outcome_blocks_batch_witness :
  (∀ conn ps, ps !! conn = Some {| buffer := []; closed := false |} →
     sheet_ai_call (stub_world long_reply) {[ "OPENAI_API_KEY" := "sk-test" ]}
       "Acme" "Revenue?" false {| provider := "openai" |} conn ps = Hangs)
  ∧ ∀ companies prompts ps, "Acme" ∈ companies → "Revenue?" ∈ prompts →
      parallel_ai_call (stub_world long_reply) {[ "OPENAI_API_KEY" := "sk-test" ]}
        companies prompts false {| provider := "openai" |} ps = Hangs.
Proof.
  apply (oversized_outcome_blocks_batch (stub_world long_reply)
           {[ "OPENAI_API_KEY" := "sk-test" ]} "Acme" "Revenue?" false
           {| provider := "openai" |}).
  vm_compute. reflexivity.
Defined.

(** The same through the entry point: a reply longer than the pipe holds,
    and the handler never answers. *)
Lemma oversized_reply_example :
  (64 * 1024 <? String.length long_reply)%nat = true
  ∧ lambda_handler (stub_world long_reply) ∅ (request "openai" ["Acme"] ["Revenue?"] false)
    = Hangs.
Proof. split; vm_compute; reflexivity. Qed.

(** A task whose gateway call raises sends the failure and ends in peace. *)
Lemma failed_task_example :
  sheet_ai_call offline_world {[ "GROK_API_KEY" := "sk-test" ]} "Acme" "Revenue?"
    false {| provider := "grok" |} 0 [{| buffer := []; closed := false |}]
  = Ends (Ok ()) [{| buffer := [[CErr "Error processing Acme: Connection error."]];
                     closed := true |}].
Proof. vm_compute. reflexivity. Qed.

(** The failure of one task, seen in the grid. *)
Lemma one_failing_task_example :
  ∃ ps,
    parallel_ai_call (lookup_fails_for "Globex") {[ "OPENAI_API_KEY" := "sk-test" ]}
      ["Acme"; "Globex"; "Initech"] ["Revenue?"; "CEO?"] true {| provider := "openai" |} []
    = Ends (Ok {| data := [[CStr "Acme"; CStr "ok"; CStr "ok"];
                           [CStr "Globex"; CErr "Error processing Globex: AccessDenied";
                            CErr "Error processing Globex: AccessDenied"];
                           [CStr "Initech"; CStr "ok"; CStr "ok"]];
                  metadata := {| companies := ["Acme"; "Globex"; "Initech"];
                                 prompts := ["Revenue?"; "CEO?"] |} |}) ps.
Proof. eexists. vm_compute. reflexivity. Qed.

(** For company names that differ, the grid has the shape and the rows the
    specification describes. *)
Lemma grid_of_distinct_companies w environ companies prompts private_data model ps :
  NoDup companies →
  batch_fits w environ companies prompts private_data model = true →
  ∃ grid ps',
    parallel_ai_call w environ companies prompts private_data model ps
    = Ends (Ok {| data := grid;
                  metadata := {| lambda_function.companies := companies;
                                 lambda_function.prompts := prompts |} |}) ps'
    ∧ length grid = length companies
    ∧ (∀ row, row ∈ grid → length row = 1 + length prompts)
    ∧ ∀ i c, companies !! i = Some c → ∃ row, grid !! i = Some row ∧ row !! 0 = Some (CStr c).
Proof.
  intros Hnd Hfits.
  destruct (parallel_ai_call_run w environ companies prompts private_data model ps Hfits)
    as (new & Hrun & _).
  rewrite (distinct_keys_id _ Hnd) in Hrun.
  eexists _, _. split; [exact Hrun|]. split_and!.
  - by rewrite length_fmap.
  - intros row (c & -> & _)%list_elem_of_fmap. apply grid_row_length.
  - intros i c Hi. eexists. split; [by rewrite list_lookup_fmap, Hi|done].
Qed.

(** C1: a company list that repeats a name gets fewer rows than it has
    entries: the results are keyed by name, so the rows of equal names are
    one row (each row still has one cell per prompt after the name).  The
    batch is one that returns: every outcome fits into its pipe. *)
Theorem repeated_company_loses_rows w environ companies prompts private_data model ps :
  ¬ NoDup companies →
  batch_fits w environ companies prompts private_data model = true →
  ∃ grid ps',
    parallel_ai_call w environ companies prompts private_data model ps
    = Ends (Ok {| data := grid;
                  metadata := {| lambda_function.companies := companies;
                                 lambda_function.prompts := prompts |} |}) ps'
    ∧ (length grid < length companies)%nat
    ∧ ∀ row, row ∈ grid → length row = 1 + length prompts.
Proof.
  intros Hdup Hfits.
  destruct (parallel_ai_call_run w environ companies prompts private_data model ps Hfits)
    as (new & Hrun & _).
  eexists _, _. split; [exact Hrun|]. split.
  - rewrite length_fmap. by apply distinct_keys_length_dup.
  - intros row (c & -> & _)%list_elem_of_fmap. apply grid_row_length.
Qed.

Lemma repeated_company_loses_rows_witness :
  ∃ grid ps',
    parallel_ai_call (stub_world "ok") {[ "OPENAI_API_KEY" := "sk-test" ]}
      ["Acme"; "Acme"] ["Revenue?"] false {| provider := "openai" |} []
    = Ends (Ok {| data := grid;
                  metadata := {| companies := ["Acme"; "Acme"];
                                 prompts := ["Revenue?"] |} |}) ps'
    ∧ (length grid < length ["Acme"; "Acme"])%nat
    ∧ ∀ row, row ∈ grid → length row = 1 + length ["Revenue?"].
Proof.
  apply (repeated_company_loses_rows (stub_world "ok") {[ "OPENAI_API_KEY" := "sk-test" ]}
           ["Acme"; "Acme"] ["Revenue?"] false {| provider := "openai" |} []).
  - intros Hnd. apply NoDup_cons in Hnd as [Hnin _]. apply Hnin. by left.
  - vm_compute. reflexivity.
Defined.

(** The two entries for Acme give one row. *)
Lemma repeated_company_example :
  ∃ ps,
    parallel_ai_call (stub_world "ok") {[ "OPENAI_API_KEY" := "sk-test" ]}
      ["Acme"; "Acme"] ["Revenue?"] false {| provider := "openai" |} []
    = Ends (Ok {| data := [[CStr "Acme"; CStr "ok"]];
                  metadata := {| companies := ["Acme"; "Acme"];
                                 prompts := ["Revenue?"] |} |}) ps.
Proof. eexists. vm_compute. reflexivity. Qed.

(** C6: with the companies Acme, Globex, Acme the grid of a batch that
    returns has the rows of Acme and Globex only: the third company has no
    row. *)
Theorem repeated_company_has_no_row_of_its_own w environ prompts private_data model ps :
  batch_fits w environ ["Acme"; "Globex"; "Acme"] prompts private_data model = true →
  ∃ grid ps',
    parallel_ai_call w environ ["Acme"; "Globex"; "Acme"] prompts private_data model ps
    = Ends (Ok {| data := grid;
                  metadata := {| companies := ["Acme"; "Globex"; "Acme"];
                                 lambda_function.prompts := prompts |} |}) ps'
    ∧ (grid !! 0 ≫= head) = Some (CStr "Acme")
    ∧ (grid !! 1 ≫= head) = Some (CStr "Globex")
    ∧ ["Acme"; "Globex"; "Acme"] !! 2 = Some "Acme"
    ∧ grid !! 2 = None.
Proof.
  intros Hfits.
  destruct (parallel_ai_call_run w environ ["Acme"; "Globex"; "Acme"] prompts
              private_data model ps Hfits) as (new & Hrun & _).
  eexists _, _. split; [exact Hrun|]. by vm_compute.
Qed.

Lemma repeated_company_has_no_row_of_its_own_witness :
  ∃ grid ps',
    parallel_ai_call (stub_world "ok") {[ "OPENAI_API_KEY" := "sk-test" ]}
      ["Acme"; "Globex"; "Acme"] ["Revenue?"] false {| provider := "openai" |} []
    = Ends (Ok {| data := grid;
                  metadata := {| companies := ["Acme"; "Globex"; "Acme"];
                                 prompts := ["Revenue?"] |} |}) ps'
    ∧ (grid !! 0 ≫= head) = Some (CStr "Acme")
    ∧ (grid !! 1 ≫= head) = Some (CStr "Globex")
    ∧ ["Acme"; "Globex"; "Acme"] !! 2 = Some "Acme"
    ∧ grid !! 2 = None.
Proof.
  apply (repeated_company_has_no_row_of_its_own (stub_world "ok")
           {[ "OPENAI_API_KEY" := "sk-test" ]} ["Revenue?"] false
           {| provider := "openai" |} []).
  vm_compute. reflexivity.
Defined.

(** C8: one company, one prompt, a gateway that answers "100M". *)
Theorem end_to_end_example w environ model ps :
  (∀ prompt, call w environ model prompt = Ok "100M") →
  ∃ ps',
    parallel_ai_call w environ ["Foo"] ["Revenue?"] false model ps
    = Ends (Ok {| data := [[CStr "Foo"; CStr "100M"]];
                  metadata := {| companies := ["Foo"]; prompts := ["Revenue?"] |} |}) ps'.
Proof.
  intros Hcall.
  assert (Houtcome : task_outcome w environ false model "Foo" "Revenue?" = CStr "100M").
  { unfold task_outcome, task_result. simpl. by rewrite Hcall. }
  destruct (parallel_ai_call_run w environ ["Foo"] ["Revenue?"] false model ps)
    as (new & Hrun & _).
  - apply short_outcomes_fit.
    intros c q ->%list_elem_of_singleton ->%list_elem_of_singleton.
    rewrite Houtcome. apply Nat.leb_le. reflexivity.
  - eexists. rewrite Hrun. simpl. unfold grid_row. simpl. by rewrite Houtcome.
Qed.

Lemma end_to_end_example_witness :
  ∃ ps',
    parallel_ai_call (stub_world "100M") {[ "OPENAI_API_KEY" := "sk-test" ]}
      ["Foo"] ["Revenue?"] false {| provider := "openai" |} []
    = Ends (Ok {| data := [[CStr "Foo"; CStr "100M"]];
                  metadata := {| companies := ["Foo"]; prompts := ["Revenue?"] |} |}) ps'.
Proof.
  apply (end_to_end_example (stub_world "100M") {[ "OPENAI_API_KEY" := "sk-test" ]}
           {| provider := "openai" |} []).
  intros prompt. reflexivity.
Defined.

(** The same example through the entry point. *)
Lemma end_to_end_handler_example :
  lambda_handler (stub_world "100M") ∅ (request "openai" ["Foo"] ["Revenue?"] false)
  = Ends (ok_response [[CStr "Foo"; CStr "100M"]] ["Foo"] ["Revenue?"])
      {[ "OPENAI_API_KEY" := "sk-test" ]}.
Proof. vm_compute. reflexivity. Qed.

(** ** The entry point *)

Lemma filter_out_empty_spec l : filter_out_empty l = filter (λ v, v ≠ "") l.
Proof. unfold filter_out_empty. apply list_filter_iff. intros v. apply truthy_true. Qed.

Lemma generate_companies_run w environ company number model :
  generate_companies w environ company number model
  = match call w environ model (discovery_prompt w number company) with
    | Ok reply => Ok (strip <$> split "," reply)
    | Raise e => Raise e
    end.
Proof.
  unfold generate_companies. destruct (call _ _ _ _) as [reply|e]; simpl; [|done].
  by rewrite append_loop_map.
Qed.

(** What the handler does once the model is built and the key is set: it
    answers as its batch ends, or with the exception of list generation. *)
Lemma lambda_handler_dispatch w environ event model environ' :
  __init__ (default "" (ev_provider event)) = Ok model →
  set_api_key model (default (PyStr "") (ev_api_key event)) environ = Ok environ' →
  lambda_handler w environ event
  = match (if default false (ev_create_list event)
           then generate_companies w environ' (request_companies event)
                  (default 10%Z (ev_number event)) model
           else Ok (request_companies event)) with
    | Ok companies =>
        answer environ'
          (parallel_ai_call w environ' companies (request_prompts event)
             (default false (ev_private_data event)) model [])
    | Raise e => Ends (error_response (exn_str e)) environ'
    end.
Proof.
  intros Hinit Hkey. unfold lambda_handler, lambda_handler_try.
  rewrite Hinit, Hkey. fold (request_companies event) (request_prompts event).
  destruct (if default false (ev_create_list event) then _ else _) as [companies|e];
    simpl; [|done].
  by destruct (parallel_ai_call _ _ _ _ _ _ _) as [[result|e] ps|].
Qed.

(** The answer of a batch whose outcomes fit. *)
Lemma answer_batch w environ companies prompts private_data model :
  batch_fits w environ companies prompts private_data model = true →
  answer environ (parallel_ai_call w environ companies prompts private_data model [])
  = Ends (ok_response
            (grid_row w environ private_data model prompts <$> distinct_keys companies)
            companies prompts) environ.
Proof.
  intros Hfits.
  destruct (parallel_ai_call_run w environ companies prompts private_data model [] Hfits)
    as (new & Hrun & _).
  by rewrite Hrun.
Qed.

(** The answer of a batch with an outcome that does not fit: none. *)
Lemma answer_batch_blocks w environ companies prompts private_data model :
  batch_fits w environ companies prompts private_data model = false →
  answer environ (parallel_ai_call w environ companies prompts private_data model [])
  = Hangs.
Proof. intros Hfits. by rewrite parallel_ai_call_blocks. Qed.

(** C3, as stated, fails: of the companies Acme, the empty string, two
    spaces and Globex, the two spaces stay. *)
Lemma blank_company_is_not_dropped :
  ¬ ∃ grid environ',
      lambda_handler (stub_world "ok") ∅
        (request "openai" ["Acme"; ""; "  "; "Globex"] ["What is X?"; ""] false)
      = Ends (ok_response grid ["Acme"; "Globex"] ["What is X?"]) environ'.
Proof.
  intros (grid & environ' & Hrun). vm_compute in Hrun. discriminate Hrun.
Qed.

(** What the handler answers there: the two spaces have a row. *)
Lemma filtering_example :
  lambda_handler (stub_world "ok") ∅
    (request "openai" ["Acme"; ""; "  "; "Globex"] ["What is X?"; ""] false)
  = Ends (ok_response [[CStr "Acme"; CStr "ok"]; [CStr "  "; CStr "ok"];
                       [CStr "Globex"; CStr "ok"]]
            ["Acme"; "  "; "Globex"] ["What is X?"])
      {[ "OPENAI_API_KEY" := "sk-test" ]}.
Proof. vm_compute. reflexivity. Qed.

(** C3: the filter drops the caller's empty values and nothing else; a value
    of white space alone is not empty and stays.  The prompts so filtered
    are those of the batch; the companies so filtered are those of the
    batch when no list is generated, and what list generation is asked
    about when one is.  Without list generation, a batch whose outcomes
    fit is answered with the filtered lists. *)
Theorem only_empty_values_are_dropped w environ event model environ' :
  __init__ (default "" (ev_provider event)) = Ok model →
  set_api_key model (default (PyStr "") (ev_api_key event)) environ = Ok environ' →
  lambda_handler w environ event
  = match (if default false (ev_create_list event)
           then generate_companies w environ'
                  (filter (λ v, v ≠ "")
                     (ensure_list (default (Many []) (ev_companies event))))
                  (default 10%Z (ev_number event)) model
           else Ok (filter (λ v, v ≠ "")
                      (ensure_list (default (Many []) (ev_companies event))))) with
    | Ok companies =>
        answer environ'
          (parallel_ai_call w environ' companies
             (filter (λ v, v ≠ "") (ensure_list (default (Many []) (ev_prompts event))))
             (default false (ev_private_data event)) model [])
    | Raise e => Ends (error_response (exn_str e)) environ'
    end
  ∧ (default false (ev_create_list event) = false →
     batch_fits w environ'
       (filter (λ v, v ≠ "") (ensure_list (default (Many []) (ev_companies event))))
       (filter (λ v, v ≠ "") (ensure_list (default (Many []) (ev_prompts event))))
       (default false (ev_private_data event)) model = true →
     ∃ grid,
       lambda_handler w environ event
       = Ends (ok_response grid
                 (filter (λ v, v ≠ "")
                    (ensure_list (default (Many []) (ev_companies event))))
                 (filter (λ v, v ≠ "")
                    (ensure_list (default (Many []) (ev_prompts event)))))
           environ').
Proof.
  intros Hinit Hkey.
  rewrite (lambda_handler_dispatch _ _ _ _ _ Hinit Hkey).
  unfold request_companies, request_prompts. rewrite !filter_out_empty_spec.
  split; [done|]. intros -> Hfits. rewrite (answer_batch _ _ _ _ _ _ Hfits).
  by eexists.
Qed.

Lemma only_empty_values_are_dropped_witness :
  lambda_handler (stub_world "ok") ∅
    (request "openai" ["Acme"; ""; "  "; "Globex"] ["What is X?"; ""] false)
  = answer {[ "OPENAI_API_KEY" := "sk-test" ]}
      (parallel_ai_call (stub_world "ok") {[ "OPENAI_API_KEY" := "sk-test" ]}
         ["Acme"; "  "; "Globex"] ["What is X?"] false {| provider := "openai" |} [])
  ∧ ∃ grid,
      lambda_handler (stub_world "ok") ∅
        (request "openai" ["Acme"; ""; "  "; "Globex"] ["What is X?"; ""] false)
      = Ends (ok_response grid ["Acme"; "  "; "Globex"] ["What is X?"])
          {[ "OPENAI_API_KEY" := "sk-test" ]}.
Proof.
  pose proof (only_empty_values_are_dropped (stub_world "ok") ∅
                (request "openai" ["Acme"; ""; "  "; "Globex"] ["What is X?"; ""] false)
                {| provider := "openai" |} {[ "OPENAI_API_KEY" := "sk-test" ]}
                ltac:(vm_compute; reflexivity) ltac:(vm_compute; reflexivity))
    as [Hdispatch Hanswer].
  split; [exact Hdispatch|]. apply Hanswer; vm_compute; reflexivity.
Defined.

(** C5: with list generation the handler asks the gateway the discovery
    prompt, splits the reply at the commas and strips each entry; the batch
    runs on that list, whatever companies the caller gave, and when its
    outcomes fit the handler answers with the grid of that list. *)
Theorem generated_companies_replace_callers w environ event model environ' reply :
  __init__ (default "" (ev_provider event)) = Ok model →
  set_api_key model (default (PyStr "") (ev_api_key event)) environ = Ok environ' →
  default false (ev_create_list event) = true →
  call w environ' model
    (discovery_prompt w (default 10%Z (ev_number event)) (request_companies event))
  = Ok reply →
  generate_companies w environ' (request_companies event)
    (default 10%Z (ev_number event)) model
  = Ok (strip <$> split "," reply)
  ∧ lambda_handler w environ event
    = answer environ'
        (parallel_ai_call w environ' (strip <$> split "," reply) (request_prompts event)
           (default false (ev_private_data event)) model [])
  ∧ (batch_fits w environ' (strip <$> split "," reply) (request_prompts event)
       (default false (ev_private_data event)) model = true →
     lambda_handler w environ event
     = Ends (ok_response
               (grid_row w environ' (default false (ev_private_data event)) model
                  (request_prompts event) <$> distinct_keys (strip <$> split "," reply))
               (strip <$> split "," reply) (request_prompts event)) environ')
  ∧ (reply = "A, B, C" →
     lambda_handler w environ event
     = answer environ'
         (parallel_ai_call w environ' ["A"; "B"; "C"] (request_prompts event)
            (default false (ev_private_data event)) model [])
     ∧ (batch_fits w environ' ["A"; "B"; "C"] (request_prompts event)
          (default false (ev_private_data event)) model = true →
        ∃ grid, lambda_handler w environ event
                = Ends (ok_response grid ["A"; "B"; "C"] (request_prompts event)) environ'
          ∧ head <$> grid = [Some (CStr "A"); Some (CStr "B"); Some (CStr "C")])).
Proof.
  intros Hinit Hkey Hlist Hcall.
  rewrite (lambda_handler_dispatch _ _ _ _ _ Hinit Hkey), Hlist.
  rewrite generate_companies_run, Hcall. split_and!; [done..| |].
  - intros Hfits. by rewrite (answer_batch _ _ _ _ _ _ Hfits).
  - intros ->.
    change (strip <$> split "," "A, B, C") with ["A"; "B"; "C"]. split; [done|].
    intros Hfits. rewrite (answer_batch _ _ _ _ _ _ Hfits). by eexists.
Qed.

Lemma generated_companies_replace_callers_witness :
  generate_companies (stub_world "A, B, C") {[ "OPENAI_API_KEY" := "sk-test" ]}
    ["Zed"; "Zed"] 10 {| provider := "openai" |}
  = Ok ["A"; "B"; "C"]
  ∧ lambda_handler (stub_world "A, B, C") ∅
      (request "openai" ["Zed"; "Zed"] ["Revenue?"] true)
    = Ends (ok_response [[CStr "A"; CStr "A, B, C"]; [CStr "B"; CStr "A, B, C"];
                         [CStr "C"; CStr "A, B, C"]]
              ["A"; "B"; "C"] ["Revenue?"])
        {[ "OPENAI_API_KEY" := "sk-test" ]}.
Proof.
  pose proof (generated_companies_replace_callers (stub_world "A, B, C") ∅
                (request "openai" ["Zed"; "Zed"] ["Revenue?"] true)
                {| provider := "openai" |} {[ "OPENAI_API_KEY" := "sk-test" ]} "A, B, C"
                ltac:(vm_compute; reflexivity) ltac:(vm_compute; reflexivity)
                ltac:(vm_compute; reflexivity) ltac:(vm_compute; reflexivity))
    as (Hgenerated & _ & Hanswer & _).
  split; [exact Hgenerated|].
  rewrite Hanswer; vm_compute; reflexivity.
Defined.

(** C7, as stated, fails: the backend of openai cannot be reached, so the
    discovery call fails, and the gateway returns the error as text; the
    text is taken for the list of companies and the handler answers 200
    with a grid. *)
Lemma failed_generation_is_answered :
  chat_completions_create offline_world {| oa_api_key := None; oa_base_url := None |}
    "gpt-4o" (discovery_prompt offline_world 10 ["Zed"])
  = Raise (Exn APIConnectionError "Connection error.")
  ∧ generate_companies offline_world {[ "OPENAI_API_KEY" := "sk-test" ]} ["Zed"] 10
      {| provider := "openai" |}
    = Ok ["Error calling AI service: Connection error."]
  ∧ lambda_handler offline_world ∅ (request "openai" ["Zed"] ["Revenue?"] true)
    = Ends (ok_response
              [[CStr "Error calling AI service: Connection error.";
                CStr "Error calling AI service: Connection error."]]
              ["Error calling AI service: Connection error."] ["Revenue?"])
        {[ "OPENAI_API_KEY" := "sk-test" ]}.
Proof. split_and!; vm_compute; reflexivity. Qed.

(** C7: with list generation, an exception of the discovery call leaves
    [generate_companies] and ends the batch: the handler answers 500 with
    the text of the exception, and no grid. *)
Theorem generation_failure_aborts_batch w environ event model environ' e :
  __init__ (default "" (ev_provider event)) = Ok model →
  set_api_key model (default (PyStr "") (ev_api_key event)) environ = Ok environ' →
  default false (ev_create_list event) = true →
  call w environ' model
    (discovery_prompt w (default 10%Z (ev_number event)) (request_companies event))
  = Raise e →
  generate_companies w environ' (request_companies event)
    (default 10%Z (ev_number event)) model = Raise e
  ∧ lambda_handler w environ event = Ends (error_response (exn_str e)) environ'
  ∧ ∀ response environ'',
      lambda_handler w environ event = Ends response environ'' →
      statusCode response = 500%Z ∧ ∀ result, body response ≠ BodyResult result.
Proof.
  intros Hinit Hkey Hlist Hcall.
  rewrite (lambda_handler_dispatch _ _ _ _ _ Hinit Hkey), Hlist.
  rewrite generate_companies_run, Hcall. split_and!; [done..|].
  by intros response environ'' [= <- _].
Qed.

Lemma generation_failure_aborts_batch_witness :
  generate_companies offline_world {[ "GROK_API_KEY" := "sk-test" ]} ["Zed"] 10
    {| provider := "grok" |}
  = Raise (Exn APIConnectionError "Connection error.")
  ∧ lambda_handler offline_world ∅ (request "grok" ["Zed"] ["Revenue?"] true)
    = Ends (error_response "Connection error.") {[ "GROK_API_KEY" := "sk-test" ]}
  ∧ ∀ response environ'',
      lambda_handler offline_world ∅ (request "grok" ["Zed"] ["Revenue?"] true)
      = Ends response environ'' →
      statusCode response = 500%Z ∧ ∀ result, body response ≠ BodyResult result.
Proof.
  apply (generation_failure_aborts_batch offline_world ∅
           (request "grok" ["Zed"] ["Revenue?"] true)
           {| provider := "grok" |} {[ "GROK_API_KEY" := "sk-test" ]}
           (Exn APIConnectionError "Connection error."));
    vm_compute; reflexivity.
Defined.

(** ** More on the provider gateway *)

Lemma points_inj s t : points s = points t → s = t.
Proof.
  unfold points. revert t. induction s as [|c s IH]; intros [|d t]; csimpl; try done.
  intros [= Hc Hs]. f_equal; [|by apply IH].
  rewrite <- (ascii_N_embedding c), <- (ascii_N_embedding d). unfold code in Hc.
  by rewrite Hc.
Qed.

(** X1: A model is built exactly for the names that are supported once
    lower-cased; building again from the stored provider, from any name
    that lower-cases to it, or from its upper-case form, gives the same
    model. *)
Theorem init_is_case_insensitive provider_name :
  (is_Some_result (__init__ provider_name) ↔ lower provider_name ∈ valid_providers)
  ∧ ∀ model, __init__ provider_name = Ok model →
      __init__ (provider model) = Ok model
      ∧ (∀ name, lower name = provider model → __init__ name = Ok model)
      ∧ (∀ name, points name = upper_points (provider model) → __init__ name = Ok model).
Proof.
  split.
  - unfold __init__, is_Some_result. case_decide; split; done.
  - intros model [Hlow Hin]%init_provider. destruct model as [p]. simpl in *.
    assert (Hname : ∀ name, lower name = p → __init__ name = Ok {| provider := p |}).
    { intros name Hname. unfold __init__. rewrite Hname. by rewrite decide_True. }
    split_and!; [|done|].
    + destruct (valid_provider_cases _ Hin) as [-> | [-> | [-> | ->]]]; by vm_compute.
    + intros name Hpoints. apply Hname.
      destruct (valid_provider_cases _ Hin) as [-> | [-> | [-> | ->]]].
      * by rewrite (points_inj name "OPENAI" Hpoints).
      * by rewrite (points_inj name "ANTHROPIC" Hpoints).
      * by rewrite (points_inj name "GROK" Hpoints).
      * by rewrite (points_inj name "PERPLEXITY" Hpoints).
Qed.

(** X2: The variable [set_api_key] writes is the one the method of the provider
    reads: a model that was built, with its key set, returns the answer of
    a backend that answers. *)
Theorem key_set_is_key_read provider_name model k environ environ' reply prompt :
  __init__ provider_name = Ok model →
  set_api_key model (PyStr k) environ = Ok environ' →
  call (stub_world reply) environ' model prompt = Ok reply.
Proof.
  intros [_ Hin]%init_provider [Hk ->]%set_api_key_ok.
  apply truthy_true in Hk.
  destruct (env_var_name_cases model Hin)
    as [_ [[Hp ->] | [[Hp ->] | [[Hp ->] | [Hp ->]]]]];
    destruct model as [p]; simpl in Hp; subst p.
  - change (call ?w ?env _ prompt) with (openai_api_call w env {| provider := "openai" |} prompt).
    unfold openai_api_call. rewrite lookup_insert_eq. simpl. by rewrite Hk.
  - change (call ?w ?env _ prompt)
      with (anthropic_api_call w env {| provider := "anthropic" |} prompt "claude-1").
    unfold anthropic_api_call. rewrite lookup_insert_eq. by rewrite Hk.
  - change (call ?w ?env _ prompt)
      with (grok_api_call w env {| provider := "grok" |} prompt "grok-model").
    unfold grok_api_call. rewrite lookup_insert_eq. by rewrite Hk.
  - change (call ?w ?env _ prompt)
      with (perplexity_api_call w env {| provider := "perplexity" |} prompt "perplexity-model").
    unfold perplexity_api_call. rewrite lookup_insert_eq. by rewrite Hk.
Qed.

Lemma key_set_is_key_read_witness :
  call (stub_world "42") {[ "PERPLEXITY_API_KEY" := "pk" ]} {| provider := "perplexity" |}
    "Hello" = Ok "42".
Proof.
  apply (key_set_is_key_read "Perplexity" {| provider := "perplexity" |} " pk " ∅);
    vm_compute; reflexivity.
Defined.

(** X3: Without a key for its provider (none, or an empty one) a model answers
    the missing-key text of that provider, whatever the backends would do:
    none is contacted and nothing is raised. *)
Theorem missing_key_is_reported provider_name model environ prompt :
  __init__ provider_name = Ok model →
  not_key (environ !! utf8 (env_var_name model)) = true →
  ∃ name,
    name ∈ ["OpenAI"; "Anthropic"; "Grok"; "Perplexity"]
    ∧ lower name = provider model
    ∧ ∀ w, call w environ model prompt
           = Ok ("Error: " +:+ name +:+ " API key not found in environment variables").
Proof.
  intros [_ Hin]%init_provider. destruct model as [p]. simpl in *.
  destruct (valid_provider_cases _ Hin) as [-> | [-> | [-> | ->]]]; intros Hkey.
  - exists "OpenAI". split_and!; [in_list | done |]. intros w.
    change (call w environ _ prompt)
      with (openai_api_call w environ {| provider := "openai" |} prompt).
    unfold openai_api_call.
    change (utf8 (env_var_name {| provider := "openai" |})) with "OPENAI_API_KEY" in Hkey.
    by rewrite Hkey.
  - exists "Anthropic". split_and!; [in_list | done |]. intros w.
    change (call w environ _ prompt)
      with (anthropic_api_call w environ {| provider := "anthropic" |} prompt "claude-1").
    unfold anthropic_api_call.
    change (utf8 (env_var_name {| provider := "anthropic" |})) with "ANTHROPIC_API_KEY" in Hkey.
    destruct (environ !! "ANTHROPIC_API_KEY"); [|done]. simpl in Hkey. by rewrite Hkey.
  - exists "Grok". split_and!; [in_list | done |]. intros w.
    change (call w environ _ prompt)
      with (grok_api_call w environ {| provider := "grok" |} prompt "grok-model").
    unfold grok_api_call.
    change (utf8 (env_var_name {| provider := "grok" |})) with "GROK_API_KEY" in Hkey.
    destruct (environ !! "GROK_API_KEY"); [|done]. simpl in Hkey. by rewrite Hkey.
  - exists "Perplexity". split_and!; [in_list | done |]. intros w.
    change (call w environ _ prompt)
      with (perplexity_api_call w environ {| provider := "perplexity" |} prompt
              "perplexity-model").
    unfold perplexity_api_call.
    change (utf8 (env_var_name {| provider := "perplexity" |})) with "PERPLEXITY_API_KEY" in Hkey.
    destruct (environ !! "PERPLEXITY_API_KEY"); [|done]. simpl in Hkey. by rewrite Hkey.
Qed.

Lemma missing_key_is_reported_witness :
  ∃ name,
    name ∈ ["OpenAI"; "Anthropic"; "Grok"; "Perplexity"]
    ∧ lower name = provider {| provider := "grok" |}
    ∧ ∀ w, call w {[ "OPENAI_API_KEY" := "sk-test"; "GROK_API_KEY" := "" ]}
             {| provider := "grok" |} "Hello"
           = Ok ("Error: " +:+ name +:+ " API key not found in environment variables").
Proof.
  apply (missing_key_is_reported "GROK" {| provider := "grok" |}
           {[ "OPENAI_API_KEY" := "sk-test"; "GROK_API_KEY" := "" ]} "Hello");
    vm_compute; reflexivity.
Defined.

(** X4: The openai and anthropic methods catch every exception: through them
    [call] never raises, whatever the backend and the environment. *)
Theorem openai_anthropic_call_never_raises w environ model prompt :
  provider model = "openai" ∨ provider model = "anthropic" →
  ∃ text, call w environ model prompt = Ok text.
Proof.
  destruct model as [p]. simpl. intros [-> | ->].
  - apply (openai_api_call_returns w environ {| provider := "openai" |} prompt).
  - apply (anthropic_api_call_returns w environ {| provider := "anthropic" |} prompt
             "claude-1").
Qed.

Lemma openai_anthropic_call_never_raises_witness :
  ∃ text, call offline_world {[ "ANTHROPIC_API_KEY" := "sk-test" ]}
            {| provider := "anthropic" |} "Hello" = Ok text.
Proof.
  apply (openai_anthropic_call_never_raises offline_world
           {[ "ANTHROPIC_API_KEY" := "sk-test" ]} {| provider := "anthropic" |} "Hello").
  right. reflexivity.
Defined.

(** X5: The perplexity method turns an HTTP error status into the error text. *)
Theorem perplexity_status_error_is_text w environ key prompt response e :
  environ !! "PERPLEXITY_API_KEY" = Some key → truthy key = true →
  requests_post w "https://api.perplexity.ai/v1/chat/completions"
    [("Authorization", "Bearer " +:+ key); ("Content-Type", "application/json")]
    "perplexity-model" prompt = Ok response →
  raise_for_status response = Raise e → is_RequestException e = true →
  call w environ {| provider := "perplexity" |} prompt
  = Ok ("Error calling AI service: " +:+ exn_str e).
Proof.
  intros Hkey Htruthy Hpost Hstatus Hreq.
  change (call w environ _ prompt)
    with (perplexity_api_call w environ {| provider := "perplexity" |} prompt
            "perplexity-model").
  unfold perplexity_api_call. rewrite Hkey, Htruthy. simpl.
  rewrite Hpost. simpl. rewrite Hstatus. simpl. by rewrite Hreq.
Qed.

(** X6: It catches the errors of [requests] only: a reply that parses but has
    no ['choices'], or an empty list of them, raises out of [call]. *)
Theorem perplexity_malformed_reply_raises w environ key prompt response choices :
  environ !! "PERPLEXITY_API_KEY" = Some key → truthy key = true →
  requests_post w "https://api.perplexity.ai/v1/chat/completions"
    [("Authorization", "Bearer " +:+ key); ("Content-Type", "application/json")]
    "perplexity-model" prompt = Ok response →
  raise_for_status response = Ok () → json_choices response = Ok choices →
  call w environ {| provider := "perplexity" |} prompt
  = match choices with
    | None => Raise (Exn KeyError "'choices'")
    | Some [] => Raise (Exn IndexError "list index out of range")
    | Some (text :: _) => Ok text
    end.
Proof.
  intros Hkey Htruthy Hpost Hstatus Hjson.
  change (call w environ _ prompt)
    with (perplexity_api_call w environ {| provider := "perplexity" |} prompt
            "perplexity-model").
  unfold perplexity_api_call. rewrite Hkey, Htruthy. simpl.
  rewrite Hpost. simpl. rewrite Hstatus. simpl. rewrite Hjson. simpl.
  by destruct choices as [[|text choices]|].
Qed.

(** X7: A model whose provider attribute is none of the four names (it was not
    built by [__init__], or the attribute was changed) gets the text for an
    unsupported provider from [call]; no backend is contacted. *)
Theorem unsupported_provider_is_text w environ model prompt :
  provider model ∉ valid_providers →
  call w environ model prompt
  = Ok ("Error: Unsupported AI provider '" +:+ provider model +:+ "'.").
Proof.
  intros Hnin. unfold call, getattr.
  repeat (let Heq := fresh "Heq" in
          case_decide as Heq;
          [destruct Hnin;
           match type of Heq with
           | _ = ?name =>
               let p := eval vm_compute in
                 (String.substring 0 (String.length name - 9) name) in
               change name with (p +:+ "_api_call") in Heq
           end;
           apply append_inj_r in Heq; rewrite Heq; in_list|]).
  done.
Qed.

Lemma perplexity_status_error_is_text_witness :
  call (perplexity_world {| raise_for_status := Raise (Exn HTTPError "401 Client Error");
                            json_choices := Ok None |})
    {[ "PERPLEXITY_API_KEY" := "pk" ]} {| provider := "perplexity" |} "Hello"
  = Ok ("Error calling AI service: " +:+ exn_str (Exn HTTPError "401 Client Error")).
Proof.
  apply (perplexity_status_error_is_text _ {[ "PERPLEXITY_API_KEY" := "pk" ]} "pk" "Hello"
           {| raise_for_status := Raise (Exn HTTPError "401 Client Error");
              json_choices := Ok None |});
    reflexivity.
Defined.

Lemma perplexity_malformed_reply_raises_witness :
  call (perplexity_world {| raise_for_status := Ok (); json_choices := Ok None |})
    {[ "PERPLEXITY_API_KEY" := "pk" ]} {| provider := "perplexity" |} "Hello"
  = Raise (Exn KeyError "'choices'").
Proof.
  apply (perplexity_malformed_reply_raises _ {[ "PERPLEXITY_API_KEY" := "pk" ]} "pk" "Hello"
           {| raise_for_status := Ok (); json_choices := Ok None |} None);
    reflexivity.
Defined.

Lemma unsupported_provider_is_text_witness :
  call offline_world ∅ {| provider := "OpenAI" |} "Hello"
  = Ok ("Error: Unsupported AI provider '" +:+ "OpenAI" +:+ "'.").
Proof.
  apply (unsupported_provider_is_text offline_world ∅ {| provider := "OpenAI" |} "Hello").
  simpl. intros Hin. by apply valid_provider_cases in Hin as [? | [? | [? | ?]]].
Defined.

(** ** More on the entry point *)

(** X8: An unsupported provider, or none, ends the request at once: the answer
    is 500 with the text of the [ValueError], and the environment is as it
    was. *)
Theorem handler_rejects_unsupported_provider w environ event :
  lower (default "" (ev_provider event)) ∉ valid_providers →
  lambda_handler w environ event
  = Ends (error_response
            "Unsupported provider. Must be one of: ['openai', 'anthropic', 'grok', 'perplexity']")
      environ.
Proof.
  intros Hnin. unfold lambda_handler, lambda_handler_try.
  by rewrite (init_unsupported _ Hnin).
Qed.

Lemma handler_rejects_unsupported_provider_witness :
  lambda_handler (stub_world "ok") ∅
    {| ev_companies := Some (Many ["Foo"]); ev_prompts := Some (Many ["Revenue?"]);
       ev_provider := None; ev_api_key := Some (PyStr "sk-test"); ev_number := None;
       ev_create_list := None; ev_private_data := None |}
  = Ends (error_response
            "Unsupported provider. Must be one of: ['openai', 'anthropic', 'grok', 'perplexity']")
      ∅.
Proof.
  apply (handler_rejects_unsupported_provider (stub_world "ok") ∅).
  simpl. intros Hin. by apply valid_provider_cases in Hin as [? | [? | [? | ?]]].
Defined.

(** X9: A key that is missing, blank or not a string ends the request before
    any task: 500 with the text of the error, the environment as it was. *)
Theorem handler_rejects_bad_key w environ event model :
  __init__ (default "" (ev_provider event)) = Ok model →
  (∀ k, default (PyStr "") (ev_api_key event) = PyStr k → strip k = "") →
  lambda_handler w environ event
  = Ends (error_response
            match default (PyStr "") (ev_api_key event) with
            | PyStr _ => "API key cannot be empty or whitespace"
            | _ => "API key must be a string"
            end)
      environ.
Proof.
  intros Hinit Hkey. unfold lambda_handler, lambda_handler_try. rewrite Hinit.
  destruct (default (PyStr "") (ev_api_key event)) as [k| | | |] eqn:Hk; try done.
  by rewrite (set_api_key_blank _ _ _ (Hkey k eq_refl)).
Qed.

Lemma handler_rejects_bad_key_witness :
  lambda_handler (stub_world "ok") ∅
    {| ev_companies := Some (Many ["Foo"]); ev_prompts := Some (Many ["Revenue?"]);
       ev_provider := Some "openai"; ev_api_key := None; ev_number := None;
       ev_create_list := None; ev_private_data := None |}
  = Ends (error_response "API key cannot be empty or whitespace") ∅.
Proof.
  apply (handler_rejects_bad_key (stub_world "ok") ∅
           {| ev_companies := Some (Many ["Foo"]); ev_prompts := Some (Many ["Revenue?"]);
              ev_provider := Some "openai"; ev_api_key := None; ev_number := None;
              ev_create_list := None; ev_private_data := None |}
           {| provider := "openai" |}).
  - vm_compute. reflexivity.
  - simpl. intros k [= <-]. reflexivity.
Defined.

(** A batch that returns is one whose outcomes fit, and it returns its
    grid. *)
Lemma parallel_ai_call_ends w environ companies prompts private_data model ps r ps' :
  parallel_ai_call w environ companies prompts private_data model ps = Ends r ps' →
  batch_fits w environ companies prompts private_data model = true
  ∧ r = Ok {| data := grid_row w environ private_data model prompts
                        <$> distinct_keys companies;
              metadata := {| lambda_function.companies := companies;
                             lambda_function.prompts := prompts |} |}.
Proof.
  destruct (batch_fits w environ companies prompts private_data model) eqn:Hfits.
  - destruct (parallel_ai_call_run w environ companies prompts private_data model ps Hfits)
      as (new & -> & _).
    by intros [= <- _].
  - by rewrite parallel_ai_call_blocks.
Qed.

(** What an answer of the handler is, once the model is built and the key
    is set. *)
Lemma lambda_handler_answers w environ event model environ' response environ'' :
  __init__ (default "" (ev_provider event)) = Ok model →
  set_api_key model (default (PyStr "") (ev_api_key event)) environ = Ok environ' →
  lambda_handler w environ event = Ends response environ'' →
  environ'' = environ'
  ∧ match (if default false (ev_create_list event)
           then generate_companies w environ' (request_companies event)
                  (default 10%Z (ev_number event)) model
           else Ok (request_companies event)) with
    | Ok companies =>
        batch_fits w environ' companies (request_prompts event)
          (default false (ev_private_data event)) model = true
        ∧ response
          = ok_response
              (grid_row w environ' (default false (ev_private_data event)) model
                 (request_prompts event) <$> distinct_keys companies)
              companies (request_prompts event)
    | Raise e => response = error_response (exn_str e)
    end.
Proof.
  intros Hinit Hkey. rewrite (lambda_handler_dispatch _ _ _ _ _ Hinit Hkey).
  destruct (if default false (ev_create_list event) then _ else _) as [companies|e].
  - destruct (parallel_ai_call _ _ _ _ _ _ _) as [r ps|] eqn:Hrun; [|done].
    apply parallel_ai_call_ends in Hrun as [Hfits ->]. simpl.
    by intros [= <- <-].
  - by intros [= <- <-].
Qed.

Lemma env_var_name_inj model1 model2 :
  provider model1 ∈ valid_providers → provider model2 ∈ valid_providers →
  utf8 (env_var_name model1) = utf8 (env_var_name model2) →
  provider model1 = provider model2.
Proof.
  intros [_ H1]%env_var_name_cases [_ H2]%env_var_name_cases.
  destruct H1 as [[-> ->] | [[-> ->] | [[-> ->] | [-> ->]]]];
    destruct H2 as [[-> ->] | [[-> ->] | [[-> ->] | [-> ->]]]]; done.
Qed.

(** X10: Keys of different providers live under different variables: setting
    the key of a second provider keeps the key of the first, and setting a
    provider's key again replaces it. *)
Theorem keys_of_providers_do_not_collide name1 name2 model1 model2 k1 k2 environ
    environ1 environ2 :
  __init__ name1 = Ok model1 → __init__ name2 = Ok model2 →
  set_api_key model1 (PyStr k1) environ = Ok environ1 →
  set_api_key model2 (PyStr k2) environ1 = Ok environ2 →
  environ2 !! utf8 (env_var_name model2) = Some (strip k2)
  ∧ environ2 !! utf8 (env_var_name model1)
    = Some (if decide (provider model1 = provider model2) then strip k2 else strip k1)
  ∧ ∀ name, name ≠ utf8 (env_var_name model1) →
            name ≠ utf8 (env_var_name model2) →
            environ2 !! name = environ !! name.
Proof.
  intros [_ Hin1]%init_provider [_ Hin2]%init_provider [_ ->]%set_api_key_ok
    [_ ->]%set_api_key_ok.
  split_and!.
  - apply lookup_insert_eq.
  - case_decide as Heq.
    + unfold env_var_name. rewrite Heq. apply lookup_insert_eq.
    + rewrite lookup_insert_ne; [apply lookup_insert_eq|].
      intros Hname. apply Heq. symmetry. by apply env_var_name_inj.
  - intros name Hne1 Hne2. by rewrite !lookup_insert_ne.
Qed.

Lemma keys_of_providers_do_not_collide_witness :
  ({[ "GROK_API_KEY" := "gk"; "OPENAI_API_KEY" := "sk" ]} : gmap string string)
    !! "GROK_API_KEY" = Some "gk"
  ∧ ({[ "GROK_API_KEY" := "gk"; "OPENAI_API_KEY" := "sk" ]} : gmap string string)
      !! "OPENAI_API_KEY"
    = Some (if decide (provider {| provider := "openai" |} = provider {| provider := "grok" |})
            then strip "gk " else strip " sk")
  ∧ ∀ name, name ≠ "OPENAI_API_KEY" → name ≠ "GROK_API_KEY" →
            ({[ "GROK_API_KEY" := "gk"; "OPENAI_API_KEY" := "sk" ]} : gmap string string)
              !! name = (∅ : gmap string string) !! name.
Proof.
  apply (keys_of_providers_do_not_collide "OpenAI" "Grok" {| provider := "openai" |}
           {| provider := "grok" |} " sk" "gk " ∅ {[ "OPENAI_API_KEY" := "sk" ]});
    vm_compute; reflexivity.
Defined.



(** The two cases at work: an aborted batch leaves the key set, and a key
    with a NUL leaves the environment as it was. *)
Lemma handler_environment_examples :
  lambda_handler offline_world {[ "HOME" := "/root" ]}
    (request "grok" ["Zed"] ["Revenue?"] true)
  = Ends (error_response "Connection error.")
      {[ "GROK_API_KEY" := "sk-test"; "HOME" := "/root" ]}
  ∧ lambda_handler (stub_world "ok") {[ "HOME" := "/root" ]}
      {| ev_companies := Some (Many ["Foo"]); ev_prompts := Some (Many ["Revenue?"]);
         ev_provider := Some "openai"; ev_api_key := Some (PyStr key_with_nul);
         ev_number := None; ev_create_list := None; ev_private_data := None |}
    = Ends (error_response "embedded null byte") {[ "HOME" := "/root" ]}.
Proof. split; vm_compute; reflexivity. Qed.

Lemma ensure_list_scalar s :
  filter_out_empty (ensure_list (Scalar s)) = filter_out_empty (ensure_list (Many [s])).
Proof. by destruct s. Qed.

(** X12: A company or a prompt given as one string is handled as the list of
    that string, and a request without the key as the empty list. *)
Theorem handler_takes_scalar_as_singleton w environ event s :
  lambda_handler w environ (with_companies event (Some (Scalar s)))
  = lambda_handler w environ (with_companies event (Some (Many [s])))
  ∧ lambda_handler w environ (with_prompts event (Some (Scalar s)))
    = lambda_handler w environ (with_prompts event (Some (Many [s])))
  ∧ lambda_handler w environ (with_companies event None)
    = lambda_handler w environ (with_companies event (Some (Many [])))
  ∧ lambda_handler w environ (with_prompts event None)
    = lambda_handler w environ (with_prompts event (Some (Many []))).
Proof.
  pose proof (ensure_list_scalar s) as Hs.
  unfold lambda_handler, lambda_handler_try, with_companies, with_prompts.
  cbn [ev_companies ev_prompts ev_provider ev_api_key ev_number ev_create_list
       ev_private_data default from_option id].
  split_and!; try reflexivity.
  - destruct (__init__ _); [|done]. destruct (set_api_key _ _ _); [|done].
    by rewrite Hs.
  - destruct (__init__ _); [|done]. destruct (set_api_key _ _ _); [|done].
    by rewrite Hs.
Qed.

(** X13: A successful answer never lists an empty prompt, and without list
    generation it never lists an empty company. *)
Theorem answer_lists_no_empty_value w environ event response environ' result :
  lambda_handler w environ event = Ends response environ' →
  body response = BodyResult result →
  ("" ∉ prompts (metadata result))
  ∧ (default false (ev_create_list event) = false → "" ∉ companies (metadata result)).
Proof.
  intros Hrun. pose proof Hrun as Hrun'. revert Hrun'.
  unfold lambda_handler at 1, lambda_handler_try.
  destruct (__init__ _) as [model|e] eqn:Hinit; [|by intros [= <- _]].
  destruct (set_api_key _ _ _) as [environ''|e] eqn:Hkey; [|by intros [= <- _]].
  intros _.
  destruct (lambda_handler_answers _ _ _ _ _ _ _ Hinit Hkey Hrun) as [_ Hresponse].
  destruct (if default false (ev_create_list event) then _ else _) as [cs|e] eqn:Hcs.
  - destruct Hresponse as [_ ->]. simpl. intros [= <-]. simpl. split.
    + unfold request_prompts. rewrite filter_out_empty_spec.
      intros [Hne _]%list_elem_of_filter. done.
    + intros Hlist. rewrite Hlist in Hcs. injection Hcs as <-.
      unfold request_companies. rewrite filter_out_empty_spec.
      intros [Hne _]%list_elem_of_filter. done.
  - by rewrite Hresponse.
Qed.

Lemma answer_lists_no_empty_value_witness :
  ("" ∉ prompts (metadata
          {| data := [[CStr "Acme"; CStr "ok"]];
             metadata := {| companies := ["Acme"]; prompts := ["What is X?"] |} |}))
  ∧ (default false (ev_create_list (request "openai" [""; "Acme"] ["What is X?"; ""] false))
     = false →
     "" ∉ companies (metadata
            {| data := [[CStr "Acme"; CStr "ok"]];
               metadata := {| companies := ["Acme"]; prompts := ["What is X?"] |} |})).
Proof.
  apply (answer_lists_no_empty_value (stub_world "ok") ∅
           (request "openai" [""; "Acme"] ["What is X?"; ""] false)
           (ok_response [[CStr "Acme"; CStr "ok"]] ["Acme"] ["What is X?"])
           {[ "OPENAI_API_KEY" := "sk-test" ]});
    vm_compute; reflexivity.
Defined.

(** ** More on the task unit *)

Lemma call_with_table_query w query environ model prompt :
  call (with_table_query w query) environ model prompt = call w environ model prompt.
Proof. reflexivity. Qed.

(** The task unit on its open pipe: it sends its outcome and closes, or it
    stays in [send]. *)
Lemma sheet_ai_call_cases w environ company prompt private_data model conn ps p :
  ps !! conn = Some p → closed p = false →
  sheet_ai_call w environ company prompt private_data model conn ps
  = if pipe_takes w (buffer p) [task_outcome w environ private_data model company prompt]
    then Ends (Ok ())
           (<[conn := {| buffer := buffer p
                           ++ [[task_outcome w environ private_data model company prompt]];
                         closed := true |}]> ps)
    else Hangs.
Proof.
  intros Hp Hopen.
  destruct (pipe_takes w (buffer p) _) eqn:Hroom.
  - by apply sheet_ai_call_run.
  - by eapply sheet_ai_call_blocks.
Qed.

(** X14: With the private-data flag, a lookup that raises makes the task a
    failure that carries the text of the lookup's error; the gateway is
    not asked, so the failure is the same whatever the model, the
    environment and the backends are. *)
Theorem lookup_error_is_task_failure w environ company prompt model conn ps p e :
  ps !! conn = Some p → closed p = false →
  table_query w "us-west-2" "qtp-ai-dynamo-db" "name" company = Raise e →
  sheet_ai_call w environ company prompt true model conn ps
  = if pipe_takes w (buffer p)
         [CErr ("Error processing " +:+ company +:+ ": " +:+ exn_str e)]
    then Ends (Ok ())
           (<[conn := {| buffer := buffer p
                           ++ [[CErr ("Error processing " +:+ company +:+ ": "
                                        +:+ exn_str e)]];
                         closed := true |}]> ps)
    else Hangs.
Proof.
  intros Hp Hopen Hquery. rewrite (sheet_ai_call_cases _ _ _ _ _ _ _ _ _ Hp Hopen).
  unfold task_outcome, task_result, read_dynamo. by rewrite Hquery.
Qed.

Lemma lookup_error_is_task_failure_witness :
  sheet_ai_call (lookup_fails_for "Globex") ∅ "Globex" "Revenue?" true
    {| provider := "openai" |} 0 [{| buffer := []; closed := false |}]
  = Ends (Ok ()) [{| buffer := [[CErr "Error processing Globex: AccessDenied"]];
                     closed := true |}].
Proof.
  apply (lookup_error_is_task_failure (lookup_fails_for "Globex") ∅ "Globex" "Revenue?"
           {| provider := "openai" |} 0 [{| buffer := []; closed := false |}]
           {| buffer := []; closed := false |} (Exn ClientError "AccessDenied"));
    reflexivity.
Defined.

(** X15: With the flag, a lookup that answers is never a failure of its own:
    the items, or the not-found dictionary when the answer has none, are
    written after the prompt, and the outcome is what the gateway makes of
    that prompt. *)
Theorem lookup_answer_goes_into_prompt w environ company prompt model conn ps p response :
  ps !! conn = Some p → closed p = false →
  table_query w "us-west-2" "qtp-ai-dynamo-db" "name" company = Ok response →
  ∃ o,
    o = match call w environ model
                (full_prompt_template company prompt
                   +:+ " Incorporate this data as a reference: "
                   +:+ match response with
                       | Some items => items
                       | None => "{'statusCode': 404, 'body': 'Customer not found'}"
                       end) with
        | Ok text => CStr text
        | Raise e => CErr ("Error processing " +:+ company +:+ ": " +:+ exn_str e)
        end
    ∧ sheet_ai_call w environ company prompt true model conn ps
      = if pipe_takes w (buffer p) [o]
        then Ends (Ok ()) (<[conn := {| buffer := buffer p ++ [[o]]; closed := true |}]> ps)
        else Hangs.
Proof.
  intros Hp Hopen Hquery. eexists. split; [reflexivity|].
  rewrite (sheet_ai_call_cases _ _ _ _ _ _ _ _ _ Hp Hopen).
  unfold task_outcome, task_result, read_dynamo. rewrite Hquery.
  by destruct response.
Qed.

Lemma lookup_answer_goes_into_prompt_witness :
  ∃ o,
    o = match call (stub_world "ok") {[ "OPENAI_API_KEY" := "sk-test" ]}
                {| provider := "openai" |}
                (full_prompt_template "Acme" "Revenue?"
                   +:+ " Incorporate this data as a reference: "
                   +:+ "{'statusCode': 404, 'body': 'Customer not found'}") with
        | Ok text => CStr text
        | Raise e => CErr ("Error processing " +:+ "Acme" +:+ ": " +:+ exn_str e)
        end
    ∧ sheet_ai_call (stub_world "ok") {[ "OPENAI_API_KEY" := "sk-test" ]} "Acme" "Revenue?"
        true {| provider := "openai" |} 0 [{| buffer := []; closed := false |}]
      = if pipe_takes (stub_world "ok") [] [o]
        then Ends (Ok ()) (<[0 := {| buffer := [] ++ [[o]]; closed := true |}]>
                             [{| buffer := []; closed := false |}])
        else Hangs.
Proof.
  apply (lookup_answer_goes_into_prompt (stub_world "ok") {[ "OPENAI_API_KEY" := "sk-test" ]}
           "Acme" "Revenue?" {| provider := "openai" |} 0
           [{| buffer := []; closed := false |}] {| buffer := []; closed := false |} None);
    reflexivity.
Defined.

(** What that task leaves in its pipe. *)
Lemma lookup_answer_example :
  sheet_ai_call (stub_world "ok") {[ "OPENAI_API_KEY" := "sk-test" ]} "Acme" "Revenue?"
    true {| provider := "openai" |} 0 [{| buffer := []; closed := false |}]
  = Ends (Ok ()) [{| buffer := [[CStr "ok"]]; closed := true |}].
Proof. vm_compute. reflexivity. Qed.

(** Without the flag the private-data table is not read: the task does the
    same whatever the table would answer. *)
Lemma no_lookup_without_flag w query environ company prompt model conn ps :
  sheet_ai_call (with_table_query w query) environ company prompt false model conn ps
  = sheet_ai_call w environ company prompt false model conn ps
  ∧ ∀ companies prompts,
      parallel_ai_call (with_table_query w query) environ companies prompts false model ps
      = parallel_ai_call w environ companies prompts false model ps.
Proof.
  split; [reflexivity|]. intros companies prompts.
  rewrite !parallel_ai_call_waves. unfold wave, start_company. reflexivity.
Qed.

(** X26: on its open pipe a task unit lets no exception out: it sends
    exactly one outcome and closes its end, or, when the pipe does not take
    the outcome, it stays in [send].  The outcome is the text of the
    gateway, or, when the lookup or the gateway raised, the failure whose
    message holds the company and the text of the exception.  A batch
    whose outcomes fit returns a complete grid, and each of its cells is
    the outcome of its own company and prompt alone. *)
Theorem task_unit_contains_failure w environ company prompt private_data model
    conn ps p :
  ps !! conn = Some p → closed p = false →
  (∃ o,
     sheet_ai_call w environ company prompt private_data model conn ps
     = (if pipe_takes w (buffer p) [o]
        then Ends (Ok ()) (<[conn := {| buffer := buffer p ++ [[o]]; closed := true |}]> ps)
        else Hangs)
     ∧ match task_result w environ private_data model company prompt with
       | Ok text => o = CStr text
       | Raise e => o = CErr ("Error processing " +:+ company +:+ ": " +:+ exn_str e)
       end)
  ∧ ∀ companies prompts ps0,
      batch_fits w environ companies prompts private_data model = true →
      ∃ grid ps1,
        parallel_ai_call w environ companies prompts private_data model ps0
        = Ends (Ok {| data := grid;
                      metadata := {| lambda_function.companies := companies;
                                     lambda_function.prompts := prompts |} |}) ps1
        ∧ length grid = length (distinct_keys companies)
        ∧ ∀ i c, distinct_keys companies !! i = Some c →
            ∃ row, grid !! i = Some row
              ∧ length row = S (length prompts)
              ∧ row !! 0 = Some (CStr c)
              ∧ ∀ j q, prompts !! j = Some q →
                  row !! S j = Some (task_outcome w environ private_data model c q).
Proof.
  intros Hp Hopen. split.
  - eexists. split; [by apply sheet_ai_call_cases|].
    unfold task_outcome. by destruct (task_result _ _ _ _ _ _).
  - intros companies prompts ps0 Hfits.
    destruct (parallel_ai_call_run w environ companies prompts private_data model ps0 Hfits)
      as (new & Hrun & _).
    eexists _, _. split; [exact Hrun|]. split; [by rewrite length_fmap|].
    intros i c Hi. eexists. split; [by rewrite list_lookup_fmap, Hi|].
    split_and!; [apply grid_row_length | done |].
    intros j q Hj. by apply grid_row_cell.
Qed.

Lemma task_unit_contains_failure_witness :
  (∃ o,
     sheet_ai_call offline_world {[ "GROK_API_KEY" := "sk-test" ]} "Acme" "Revenue?"
       false {| provider := "grok" |} 0 [{| buffer := []; closed := false |}]
     = (if pipe_takes offline_world [] [o]
        then Ends (Ok ()) (<[0 := {| buffer := [] ++ [[o]]; closed := true |}]>
                             [{| buffer := []; closed := false |}])
        else Hangs)
     ∧ match task_result offline_world {[ "GROK_API_KEY" := "sk-test" ]} false
               {| provider := "grok" |} "Acme" "Revenue?" with
       | Ok text => o = CStr text
       | Raise e => o = CErr ("Error processing " +:+ "Acme" +:+ ": " +:+ exn_str e)
       end)
  ∧ ∀ companies prompts ps0,
      batch_fits offline_world {[ "GROK_API_KEY" := "sk-test" ]} companies prompts false
        {| provider := "grok" |} = true →
      ∃ grid ps1,
        parallel_ai_call offline_world {[ "GROK_API_KEY" := "sk-test" ]}
          companies prompts false {| provider := "grok" |} ps0
        = Ends (Ok {| data := grid;
                      metadata := {| lambda_function.companies := companies;
                                     lambda_function.prompts := prompts |} |}) ps1
        ∧ length grid = length (distinct_keys companies)
        ∧ ∀ i c, distinct_keys companies !! i = Some c →
            ∃ row, grid !! i = Some row
              ∧ length row = S (length prompts)
              ∧ row !! 0 = Some (CStr c)
              ∧ ∀ j q, prompts !! j = Some q →
                  row !! S j
                  = Some (task_outcome offline_world {[ "GROK_API_KEY" := "sk-test" ]}
                            false {| provider := "grok" |} c q).
Proof.
  apply (task_unit_contains_failure offline_world {[ "GROK_API_KEY" := "sk-test" ]}
           "Acme" "Revenue?" false {| provider := "grok" |} 0
           [{| buffer := []; closed := false |}] {| buffer := []; closed := false |});
    reflexivity.
Defined.

(** ** More on the batch *)

Lemma batch_fits_no_company w environ prompts private_data model :
  batch_fits w environ [] prompts private_data model = true.
Proof. unfold batch_fits. by induction prompts. Qed.

Lemma batch_fits_app w environ companies prompts1 prompts2 private_data model :
  batch_fits w environ companies (prompts1 ++ prompts2) private_data model
  = batch_fits w environ companies prompts1 private_data model
    && batch_fits w environ companies prompts2 private_data model.
Proof. unfold batch_fits. apply forallb_app. Qed.

Lemma forallb_add_key (f : string → bool) ks k :
  forallb f (add_key ks k) = forallb f ks && (if decide (k ∈ ks) then true else f k).
Proof.
  unfold add_key. case_decide; [by rewrite andb_true_r|].
  rewrite forallb_app. simpl. by rewrite andb_true_r.
Qed.

Lemma forallb_foldl_add_key (f : string → bool) l ks :
  forallb f (foldl add_key ks l) = forallb f ks && forallb f l.
Proof.
  revert ks. induction l as [|c l IH]; intros ks; simpl; [by rewrite andb_true_r|].
  rewrite IH, forallb_add_key. case_decide as Hin; [|by rewrite andb_assoc].
  destruct (forallb f ks) eqn:Hks; [|done]. simpl.
  rewrite forallb_forall in Hks. apply list_elem_of_In in Hin. by rewrite (Hks c Hin).
Qed.

(** The outcomes of a list fit when those of its distinct names do. *)
Lemma batch_fits_distinct_keys w environ companies prompts private_data model :
  batch_fits w environ (distinct_keys companies) prompts private_data model
  = batch_fits w environ companies prompts private_data model.
Proof.
  unfold batch_fits, distinct_keys. induction prompts as [|q prompts IH]; [done|].
  simpl. by rewrite IH, forallb_foldl_add_key.
Qed.

(** X16: Every entry of the company list, repeated names included, gets one
    process and one pipe of its own for each prompt: a batch whose outcomes
    fit adds [len(companies) * len(prompts)] pipes after those of the
    store, leaves the earlier ones as they were, and every child has
    closed its end. *)
Theorem batch_starts_one_process_per_entry w environ companies prompts private_data
    model ps :
  batch_fits w environ companies prompts private_data model = true →
  ∃ grid new,
    parallel_ai_call w environ companies prompts private_data model ps
    = Ends (Ok {| data := grid;
                  metadata := {| lambda_function.companies := companies;
                                 lambda_function.prompts := prompts |} |})
        (ps ++ new)
    ∧ length new = length prompts * length companies
    ∧ Forall (λ p, closed p = true) new.
Proof.
  intros Hfits.
  destruct (parallel_ai_call_run w environ companies prompts private_data model ps Hfits)
    as (new & Hrun & Hlen & Hclosed & _).
  by eexists _, new.
Qed.

Lemma batch_starts_one_process_per_entry_witness :
  ∃ grid new,
    parallel_ai_call (stub_world "ok") {[ "OPENAI_API_KEY" := "sk-test" ]}
      ["Acme"; "Acme"; "Globex"] ["Revenue?"; "CEO?"] false {| provider := "openai" |}
      [delivered (CStr "earlier")]
    = Ends (Ok {| data := grid;
                  metadata := {| companies := ["Acme"; "Acme"; "Globex"];
                                 prompts := ["Revenue?"; "CEO?"] |} |})
        ([delivered (CStr "earlier")] ++ new)
    ∧ length new = length ["Revenue?"; "CEO?"] * length ["Acme"; "Acme"; "Globex"]
    ∧ Forall (λ p, closed p = true) new.
Proof.
  apply (batch_starts_one_process_per_entry (stub_world "ok")
           {[ "OPENAI_API_KEY" := "sk-test" ]} ["Acme"; "Acme"; "Globex"]
           ["Revenue?"; "CEO?"] false {| provider := "openai" |}
           [delivered (CStr "earlier")]).
  vm_compute. reflexivity.
Defined.

(** X17: When the company names differ and the outcomes fit, the parent has
    received every outcome by the end of the batch: each new pipe is empty
    and closed. *)
Theorem batch_receives_every_outcome w environ companies prompts private_data model ps :
  NoDup companies →
  batch_fits w environ companies prompts private_data model = true →
  ∃ result,
    parallel_ai_call w environ companies prompts private_data model ps
    = Ends (Ok result) (ps ++ replicate (length prompts * length companies) drained).
Proof.
  intros Hnd Hfits.
  destruct (parallel_ai_call_run w environ companies prompts private_data model ps Hfits)
    as (new & Hrun & _ & _ & Hnew).
  rewrite (Hnew Hnd) in Hrun. by eexists.
Qed.

Lemma batch_receives_every_outcome_witness :
  ∃ result,
    parallel_ai_call offline_world {[ "GROK_API_KEY" := "sk-test" ]} ["Acme"; "Globex"]
      ["Revenue?"; "CEO?"; "Founded?"] false {| provider := "grok" |} []
    = Ends (Ok result)
        ([] ++ replicate (length ["Revenue?"; "CEO?"; "Founded?"]
                          * length ["Acme"; "Globex"]) drained).
Proof.
  apply (batch_receives_every_outcome offline_world {[ "GROK_API_KEY" := "sk-test" ]}
           ["Acme"; "Globex"] ["Revenue?"; "CEO?"; "Founded?"] false
           {| provider := "grok" |} []).
  - apply (bool_decide_unpack _). vm_compute. reflexivity.
  - vm_compute. reflexivity.
Defined.

(** With a repeated name the outcome of the earlier task stays unread in
    its pipe: here the first of two tasks for Acme. *)
Lemma unread_outcome_example :
  ∃ result,
    parallel_ai_call (stub_world "ok") {[ "OPENAI_API_KEY" := "sk-test" ]} ["Acme"; "Acme"]
      ["Revenue?"] false {| provider := "openai" |} []
    = Ends (Ok result) [delivered (CStr "ok"); drained].
Proof. eexists. vm_compute. reflexivity. Qed.

(** X18: With no company, or with no prompt, the batch starts no process and
    asks no backend: the store is as it was, and the grid is empty, or has
    the bare names. *)
Theorem batch_without_work w environ companies prompts private_data model ps :
  parallel_ai_call w environ [] prompts private_data model ps
  = Ends (Ok {| data := [];
                metadata := {| lambda_function.companies := [];
                               lambda_function.prompts := prompts |} |}) ps
  ∧ parallel_ai_call w environ companies [] private_data model ps
    = Ends (Ok {| data := (λ company, [CStr company]) <$> distinct_keys companies;
                  metadata := {| lambda_function.companies := companies;
                                 lambda_function.prompts := [] |} |}) ps.
Proof.
  split.
  - destruct (parallel_ai_call_run w environ [] prompts private_data model ps
                (batch_fits_no_company _ _ _ _ _)) as (new & Hrun & Hlen & _).
    rewrite Nat.mul_0_r in Hlen. apply nil_length_inv in Hlen as ->.
    by rewrite app_nil_r in Hrun.
  - destruct (parallel_ai_call_run w environ companies [] private_data model ps eq_refl)
      as (new & Hrun & Hlen & _).
    simpl in Hlen. apply nil_length_inv in Hlen as ->.
    by rewrite app_nil_r in Hrun.
Qed.

(** X19: The rows are keyed by name: in the grid of a batch that returns no
    two rows start with the same company, and the companies that start a
    row are those of the list. *)
Theorem one_row_for_each_name w environ companies prompts private_data model ps :
  batch_fits w environ companies prompts private_data model = true →
  ∃ grid ps',
    parallel_ai_call w environ companies prompts private_data model ps
    = Ends (Ok {| data := grid;
                  metadata := {| lambda_function.companies := companies;
                                 lambda_function.prompts := prompts |} |}) ps'
    ∧ NoDup (head <$> grid)
    ∧ ∀ company, company ∈ companies ↔ Some (CStr company) ∈ head <$> grid.
Proof.
  intros Hfits.
  destruct (parallel_ai_call_run w environ companies prompts private_data model ps Hfits)
    as (new & Hrun & _).
  eexists _, _. split; [exact Hrun|].
  rewrite <- list_fmap_compose.
  assert (Hheads : (head ∘ grid_row w environ private_data model prompts)
                     <$> distinct_keys companies
                   = (λ c, Some (CStr c)) <$> distinct_keys companies)
    by (by apply list_fmap_ext).
  rewrite Hheads. split.
  - apply NoDup_fmap_2; [|apply distinct_keys_NoDup]. by intros c1 c2 [=].
  - intros company. rewrite <- distinct_keys_elem, list_elem_of_fmap. split.
    + intros Hin. by exists company.
    + by intros (c & [= ->] & Hin).
Qed.

Lemma one_row_for_each_name_witness :
  ∃ grid ps',
    parallel_ai_call (stub_world "ok") {[ "OPENAI_API_KEY" := "sk-test" ]}
      ["Acme"; "Globex"; "Acme"] ["Revenue?"] false {| provider := "openai" |} []
    = Ends (Ok {| data := grid;
                  metadata := {| companies := ["Acme"; "Globex"; "Acme"];
                                 prompts := ["Revenue?"] |} |}) ps'
    ∧ NoDup (head <$> grid)
    ∧ ∀ company, company ∈ ["Acme"; "Globex"; "Acme"]
                 ↔ Some (CStr company) ∈ head <$> grid.
Proof.
  apply (one_row_for_each_name (stub_world "ok") {[ "OPENAI_API_KEY" := "sk-test" ]}
           ["Acme"; "Globex"; "Acme"] ["Revenue?"] false {| provider := "openai" |} []).
  vm_compute. reflexivity.
Defined.

(** X20: Prompts compose by columns: the grid for the prompts [P1 ++ P2] is the
    grid for [P1] with, row by row, the outcomes of the grid for [P2]
    after it, when the backends answer each request as before and the
    outcomes fit. *)
Theorem prompts_compose_by_columns w environ companies prompts1 prompts2 private_data
    model ps ps1 ps2 :
  batch_fits w environ companies (prompts1 ++ prompts2) private_data model = true →
  ∃ grid1 grid2 grid ps1' ps2' ps',
    parallel_ai_call w environ companies prompts1 private_data model ps1
    = Ends (Ok {| data := grid1;
                  metadata := {| lambda_function.companies := companies;
                                 lambda_function.prompts := prompts1 |} |}) ps1'
    ∧ parallel_ai_call w environ companies prompts2 private_data model ps2
      = Ends (Ok {| data := grid2;
                    metadata := {| lambda_function.companies := companies;
                                   lambda_function.prompts := prompts2 |} |}) ps2'
    ∧ parallel_ai_call w environ companies (prompts1 ++ prompts2) private_data model ps
      = Ends (Ok {| data := grid;
                    metadata := {| lambda_function.companies := companies;
                                   lambda_function.prompts := prompts1 ++ prompts2 |} |})
          ps'
    ∧ grid = zip_with (λ row1 row2, row1 ++ drop 1 row2) grid1 grid2.
Proof.
  intros Hfits. pose proof Hfits as Hboth.
  rewrite batch_fits_app in Hboth. apply andb_prop in Hboth as [Hfits1 Hfits2].
  destruct (parallel_ai_call_run w environ companies prompts1 private_data model ps1 Hfits1)
    as (new1 & Hrun1 & _).
  destruct (parallel_ai_call_run w environ companies prompts2 private_data model ps2 Hfits2)
    as (new2 & Hrun2 & _).
  destruct (parallel_ai_call_run w environ companies (prompts1 ++ prompts2) private_data
              model ps Hfits) as (new & Hrun & _).
  exists (grid_row w environ private_data model prompts1 <$> distinct_keys companies),
    (grid_row w environ private_data model prompts2 <$> distinct_keys companies),
    (grid_row w environ private_data model (prompts1 ++ prompts2)
       <$> distinct_keys companies), (ps1 ++ new1), (ps2 ++ new2), (ps ++ new).
  split_and!; [exact Hrun1 | exact Hrun2 | exact Hrun |].
  clear. induction (distinct_keys companies) as [|c ks IH]; csimpl; [done|].
  rewrite <- IH. f_equal. unfold grid_row. simpl. by rewrite map_app.
Qed.

Lemma prompts_compose_by_columns_witness :
  ∃ grid1 grid2 grid ps1' ps2' ps',
    parallel_ai_call (stub_world "ok") {[ "OPENAI_API_KEY" := "sk-test" ]}
      ["Acme"; "Globex"] ["Revenue?"] false {| provider := "openai" |} []
    = Ends (Ok {| data := grid1;
                  metadata := {| companies := ["Acme"; "Globex"];
                                 prompts := ["Revenue?"] |} |}) ps1'
    ∧ parallel_ai_call (stub_world "ok") {[ "OPENAI_API_KEY" := "sk-test" ]}
        ["Acme"; "Globex"] ["CEO?"] false {| provider := "openai" |} []
      = Ends (Ok {| data := grid2;
                    metadata := {| companies := ["Acme"; "Globex"];
                                   prompts := ["CEO?"] |} |}) ps2'
    ∧ parallel_ai_call (stub_world "ok") {[ "OPENAI_API_KEY" := "sk-test" ]}
        ["Acme"; "Globex"] (["Revenue?"] ++ ["CEO?"]) false {| provider := "openai" |} []
      = Ends (Ok {| data := grid;
                    metadata := {| companies := ["Acme"; "Globex"];
                                   prompts := ["Revenue?"] ++ ["CEO?"] |} |}) ps'
    ∧ grid = zip_with (λ row1 row2, row1 ++ drop 1 row2) grid1 grid2.
Proof.
  apply (prompts_compose_by_columns (stub_world "ok") {[ "OPENAI_API_KEY" := "sk-test" ]}
           ["Acme"; "Globex"] ["Revenue?"] ["CEO?"] false {| provider := "openai" |}
           [] [] []).
  vm_compute. reflexivity.
Defined.

(** ** More on list generation *)

Lemma split_nonempty sep s : split sep s ≠ [].
Proof.
  destruct s as [|c s]; simpl; [done|].
  destruct (split sep s); [done|]. by destruct (Ascii.eqb c sep).
Qed.

Lemma length_split sep s : length (split sep s) = S (count_char sep s).
Proof.
  induction s as [|c s IH]; simpl; [done|].
  pose proof (split_nonempty sep s) as Hne.
  destruct (split sep s) as [|h t]; [done|].
  destruct (Ascii.eqb c sep); simpl in *; lia.
Qed.

Lemma split_segments_have_no_sep sep s seg :
  seg ∈ split sep s → count_char sep seg = 0.
Proof.
  revert seg. induction s as [|c s IH]; simpl; intros seg.
  - by intros ->%list_elem_of_singleton.
  - pose proof (split_nonempty sep s) as Hne.
    destruct (split sep s) as [|h t]; [done|].
    destruct (Ascii.eqb c sep) eqn:Hc.
    + intros [->|Hin]%elem_of_cons; [done | by apply IH].
    + intros [->|Hin]%elem_of_cons.
      * simpl. rewrite Hc. apply IH. by left.
      * apply IH. by right.
Qed.

Lemma split_trailing_sep sep s :
  split sep (s +:+ String sep "") = split sep s ++ [""].
Proof.
  induction s as [|c s IH]; simpl.
  - by rewrite Ascii.eqb_refl.
  - rewrite IH. pose proof (split_nonempty sep s) as Hne.
    destruct (split sep s) as [|h t]; [done|]. simpl.
    by destruct (Ascii.eqb c sep).
Qed.

(** X21: The generated list has one name more than the reply has commas, so it
    is never empty; each name is stripped and holds no comma. *)
Theorem generated_list_shape w environ company number model reply :
  call w environ model (discovery_prompt w number company) = Ok reply →
  ∃ names,
    generate_companies w environ company number model = Ok names
    ∧ length names = S (count_char "," reply)
    ∧ ∀ name, name ∈ names → strip name = name ∧ count_char "," name = 0.
Proof.
  intros Hcall. rewrite generate_companies_run, Hcall. eexists. split; [done|]. split.
  - by rewrite length_fmap, length_split.
  - intros name (seg & -> & Hseg)%list_elem_of_fmap. split; [apply strip_idempotent|].
    pose proof (count_char_strip "," seg) as Hle.
    rewrite (split_segments_have_no_sep _ _ _ Hseg) in Hle. lia.
Qed.

Lemma generated_list_shape_witness :
  ∃ names,
    generate_companies (stub_world " Sony ,Tencent,  ") {[ "OPENAI_API_KEY" := "sk-test" ]}
      ["Zed"] 10 {| provider := "openai" |} = Ok names
    ∧ length names = S (count_char "," " Sony ,Tencent,  ")
    ∧ ∀ name, name ∈ names → strip name = name ∧ count_char "," name = 0.
Proof.
  apply (generated_list_shape (stub_world " Sony ,Tencent,  ")
           {[ "OPENAI_API_KEY" := "sk-test" ]} ["Zed"] 10 {| provider := "openai" |}).
  reflexivity.
Defined.

(** What that reply gives. *)
Lemma generated_list_example :
  generate_companies (stub_world " Sony ,Tencent,  ") {[ "OPENAI_API_KEY" := "sk-test" ]}
    ["Zed"] 10 {| provider := "openai" |}
  = Ok ["Sony"; "Tencent"; ""].
Proof. vm_compute. reflexivity. Qed.

(** X22: The generated names are not filtered: an empty reply, or a reply that
    ends in a comma, puts a company with the empty name into the batch,
    with a row of its own in the grid the handler answers with. *)
Theorem generated_names_are_not_filtered w environ event model environ' reply :
  __init__ (default "" (ev_provider event)) = Ok model →
  set_api_key model (default (PyStr "") (ev_api_key event)) environ = Ok environ' →
  default false (ev_create_list event) = true →
  call w environ' model
    (discovery_prompt w (default 10%Z (ev_number event)) (request_companies event))
  = Ok reply →
  reply = "" ∨ (∃ r, reply = r +:+ ",") →
  ∃ names,
    lambda_handler w environ event
    = answer environ'
        (parallel_ai_call w environ' names (request_prompts event)
           (default false (ev_private_data event)) model [])
    ∧ "" ∈ names
    ∧ (batch_fits w environ' names (request_prompts event)
         (default false (ev_private_data event)) model = true →
       ∃ grid,
         lambda_handler w environ event
         = Ends (ok_response grid names (request_prompts event)) environ'
         ∧ Some (CStr "") ∈ head <$> grid).
Proof.
  intros Hinit Hkey Hlist Hcall Hreply.
  rewrite (lambda_handler_dispatch _ _ _ _ _ Hinit Hkey), Hlist.
  rewrite generate_companies_run, Hcall. eexists. split; [done|].
  assert (Hin : "" ∈ strip <$> split "," reply).
  { apply list_elem_of_fmap. exists "". split; [done|].
    destruct Hreply as [->|[r ->]]; [by left|].
    rewrite split_trailing_sep. apply elem_of_app. right. by left. }
  split; [done|]. intros Hfits. rewrite (answer_batch _ _ _ _ _ _ Hfits).
  eexists. split; [done|]. rewrite <- list_fmap_compose.
  apply list_elem_of_fmap. exists "". split; [done|]. by apply distinct_keys_elem.
Qed.

Lemma generated_names_are_not_filtered_witness :
  ∃ names,
    lambda_handler (stub_world "Sony,") ∅ (request "openai" ["Zed"] ["Revenue?"] true)
    = answer {[ "OPENAI_API_KEY" := "sk-test" ]}
        (parallel_ai_call (stub_world "Sony,") {[ "OPENAI_API_KEY" := "sk-test" ]} names
           ["Revenue?"] false {| provider := "openai" |} [])
    ∧ "" ∈ names
    ∧ (batch_fits (stub_world "Sony,") {[ "OPENAI_API_KEY" := "sk-test" ]} names
         ["Revenue?"] false {| provider := "openai" |} = true →
       ∃ grid,
         lambda_handler (stub_world "Sony,") ∅ (request "openai" ["Zed"] ["Revenue?"] true)
         = Ends (ok_response grid names ["Revenue?"]) {[ "OPENAI_API_KEY" := "sk-test" ]}
         ∧ Some (CStr "") ∈ head <$> grid).
Proof.
  apply (generated_names_are_not_filtered (stub_world "Sony,") ∅
           (request "openai" ["Zed"] ["Revenue?"] true) {| provider := "openai" |}
           {[ "OPENAI_API_KEY" := "sk-test" ]} "Sony,").
  - vm_compute. reflexivity.
  - vm_compute. reflexivity.
  - reflexivity.
  - reflexivity.
  - right. exists "Sony". reflexivity.
Defined.

(** The answer to that request: the empty name has a row. *)
Lemma generated_empty_name_example :
  lambda_handler (stub_world "Sony,") ∅ (request "openai" ["Zed"] ["Revenue?"] true)
  = Ends (ok_response [[CStr "Sony"; CStr "Sony,"]; [CStr ""; CStr "Sony,"]]
            ["Sony"; ""] ["Revenue?"])
      {[ "OPENAI_API_KEY" := "sk-test" ]}.
Proof. vm_compute. reflexivity. Qed.

(** ** Rows and repeated names *)

Lemma distinct_keys_snoc l c : distinct_keys (l ++ [c]) = add_key (distinct_keys l) c.
Proof. unfold distinct_keys. by rewrite foldl_app. Qed.

Lemma batch_fits_companies_app w environ companies1 companies2 prompts private_data model :
  batch_fits w environ (companies1 ++ companies2) prompts private_data model
  = batch_fits w environ companies1 prompts private_data model
    && batch_fits w environ companies2 prompts private_data model.
Proof.
  unfold batch_fits. induction prompts as [|q prompts IH]; [done|]. simpl.
  rewrite IH, forallb_app.
  repeat match goal with
         | |- context [forallb ?f ?l] => destruct (forallb f l)
         end; done.
Qed.

(** X23: Companies compose by rows: a further company at the end of the list
    adds its row at the end of the grid when its name is new, and changes
    nothing when the name is already listed (the outcomes fit). *)
Theorem companies_compose_by_rows w environ companies company prompts private_data model
    ps ps0 :
  batch_fits w environ (companies ++ [company]) prompts private_data model = true →
  ∃ grid0 grid row ps0' ps',
    parallel_ai_call w environ companies prompts private_data model ps0
    = Ends (Ok {| data := grid0;
                  metadata := {| lambda_function.companies := companies;
                                 lambda_function.prompts := prompts |} |}) ps0'
    ∧ parallel_ai_call w environ (companies ++ [company]) prompts private_data model ps
      = Ends (Ok {| data := grid;
                    metadata := {| lambda_function.companies := companies ++ [company];
                                   lambda_function.prompts := prompts |} |}) ps'
    ∧ head row = Some (CStr company) ∧ length row = S (length prompts)
    ∧ grid = if decide (company ∈ companies) then grid0 else grid0 ++ [row].
Proof.
  intros Hfits. pose proof Hfits as Hboth.
  rewrite batch_fits_companies_app in Hboth. apply andb_prop in Hboth as [Hfits0 _].
  destruct (parallel_ai_call_run w environ companies prompts private_data model ps0 Hfits0)
    as (new0 & Hrun0 & _).
  destruct (parallel_ai_call_run w environ (companies ++ [company]) prompts private_data
              model ps Hfits) as (new & Hrun & _).
  exists (grid_row w environ private_data model prompts <$> distinct_keys companies),
    (grid_row w environ private_data model prompts <$> distinct_keys (companies ++ [company])),
    (grid_row w environ private_data model prompts company), (ps0 ++ new0), (ps ++ new).
  split_and!; [done | done | done | apply grid_row_length |].
  rewrite distinct_keys_snoc. unfold add_key.
  destruct (decide (company ∈ companies)) as [Hin|Hnin].
  - rewrite decide_True by (by apply distinct_keys_elem). done.
  - rewrite decide_False by (by rewrite distinct_keys_elem). by rewrite fmap_app.
Qed.

Lemma companies_compose_by_rows_witness :
  ∃ grid0 grid row ps0' ps',
    parallel_ai_call (stub_world "ok") {[ "OPENAI_API_KEY" := "sk-test" ]}
      ["Acme"; "Globex"] ["Revenue?"] false {| provider := "openai" |} []
    = Ends (Ok {| data := grid0;
                  metadata := {| companies := ["Acme"; "Globex"];
                                 prompts := ["Revenue?"] |} |}) ps0'
    ∧ parallel_ai_call (stub_world "ok") {[ "OPENAI_API_KEY" := "sk-test" ]}
        (["Acme"; "Globex"] ++ ["Initech"]) ["Revenue?"] false {| provider := "openai" |} []
      = Ends (Ok {| data := grid;
                    metadata := {| companies := ["Acme"; "Globex"] ++ ["Initech"];
                                   prompts := ["Revenue?"] |} |}) ps'
    ∧ head row = Some (CStr "Initech") ∧ length row = S (length ["Revenue?"])
    ∧ grid = if decide ("Initech" ∈ ["Acme"; "Globex"]) then grid0 else grid0 ++ [row].
Proof.
  apply (companies_compose_by_rows (stub_world "ok") {[ "OPENAI_API_KEY" := "sk-test" ]}
           ["Acme"; "Globex"] "Initech" ["Revenue?"] false {| provider := "openai" |}
           [] []).
  vm_compute. reflexivity.
Defined.

(** X24: Listing a name again changes nothing in the grid: the batch on a list
    and the batch on its names, each once in order of first occurrence,
    return the same rows (the outcomes fit). *)
Theorem repeated_names_change_no_row w environ companies prompts private_data model ps ps0 :
  batch_fits w environ companies prompts private_data model = true →
  ∃ grid ps' ps0',
    parallel_ai_call w environ companies prompts private_data model ps
    = Ends (Ok {| data := grid;
                  metadata := {| lambda_function.companies := companies;
                                 lambda_function.prompts := prompts |} |}) ps'
    ∧ parallel_ai_call w environ (distinct_keys companies) prompts private_data model ps0
      = Ends (Ok {| data := grid;
                    metadata := {| lambda_function.companies := distinct_keys companies;
                                   lambda_function.prompts := prompts |} |}) ps0'.
Proof.
  intros Hfits. pose proof Hfits as Hfits0.
  rewrite <- batch_fits_distinct_keys in Hfits0.
  destruct (parallel_ai_call_run w environ companies prompts private_data model ps Hfits)
    as (new & Hrun & _).
  destruct (parallel_ai_call_run w environ (distinct_keys companies) prompts private_data
              model ps0 Hfits0) as (new0 & Hrun0 & _).
  rewrite (distinct_keys_id _ (distinct_keys_NoDup companies)) in Hrun0.
  by eexists _, _, _.
Qed.

Lemma repeated_names_change_no_row_witness :
  ∃ grid ps' ps0',
    parallel_ai_call (stub_world "ok") {[ "OPENAI_API_KEY" := "sk-test" ]}
      ["Acme"; "Globex"; "Acme"] ["Revenue?"] false {| provider := "openai" |} []
    = Ends (Ok {| data := grid;
                  metadata := {| companies := ["Acme"; "Globex"; "Acme"];
                                 prompts := ["Revenue?"] |} |}) ps'
    ∧ parallel_ai_call (stub_world "ok") {[ "OPENAI_API_KEY" := "sk-test" ]}
        (distinct_keys ["Acme"; "Globex"; "Acme"]) ["Revenue?"] false
        {| provider := "openai" |} []
      = Ends (Ok {| data := grid;
                    metadata := {| companies := distinct_keys ["Acme"; "Globex"; "Acme"];
                                   prompts := ["Revenue?"] |} |}) ps0'.
Proof.
  apply (repeated_names_change_no_row (stub_world "ok") {[ "OPENAI_API_KEY" := "sk-test" ]}
           ["Acme"; "Globex"; "Acme"] ["Revenue?"] false {| provider := "openai" |} [] []).
  vm_compute. reflexivity.
Defined.




(** The answer to that request: the error text as the one company. *)
Lemma anthropic_offline_example :
  lambda_handler offline_world ∅ (request "anthropic" ["Zed"] ["Revenue?"] true)
  = Ends (ok_response
            [[CStr "Error calling AI service: Connection error.";
              CStr "Error calling AI service: Connection error."]]
            ["Error calling AI service: Connection error."] ["Revenue?"])
      {[ "ANTHROPIC_API_KEY" := "sk-test" ]}.
Proof. vm_compute. reflexivity. Qed.

(** ** Blocking *)



